(** * The permission check engine of internal/services/permissionService.go

    A shallow embedding of the rule-tree evaluator, its union and
    intersection combiners and the tuple-graph leaf resolver.

    How the Go program is rendered:
    - a [CheckFunction] writes its decisions to a channel; here it returns
      the list of decisions it writes ([sent]), in order, and how its
      goroutine ends ([status]);
    - the depth counter is an [int] behind a pointer held by the
      [Request]; here it is a cell of [heap], addressed by [depth];
    - a combiner starts one goroutine per function and then reads the
      channel in a [select] loop; [unionLoop] and [intersectionLoop] are
      that loop over what the [select] picks, [launch] runs the goroutines
      one after the other in the order the scheduler ([schedule]) picks;
    - goroutines that outlive the reader of their channel are followed for
      [fuel] generations. *)

From Stdlib Require Import ZArith List String Ascii Bool Lia Permutation.
Import ListNotations.
Local Open Scope string_scope.
Local Open Scope list_scope.
Set Warnings "-register-all".

(** ** Errors and decisions *)

(** The package's error values; [ExternalError] stands for an error value
    made elsewhere (by the tuple store or by the object parser). A Go
    [error] that may be nil is an [option error]. *)
Inductive error : Type :=
| DepthError
| CanceledError
| ActionCannotFoundError
| UndefinedChildTypeError
| UndefinedChildKindError
| ExternalError (msg : string).

Record Decision : Type := { Can : bool; Err : option error }.

Definition sendDecision (can : bool) (err : option error) : Decision :=
  {| Can := can; Err := err |}.



(** No decision is both allowed and erroneous. *)
Definition sound (d : Decision) : Prop := Can d = true -> Err d = None.

(** ** The packages the service imports *)

Module tuple.

Definition Relation : Type := string.

Record Object : Type := { Namespace : string; ID : string }.

Record UserSet : Type :=
  { UserSet_Object : Object; UserSet_Relation : Relation }.

Record User : Type := { User_UserSet : UserSet; User_ID : string }.

(** The functions of pkg/tuple the service calls. The package is not part
    of the sources at hand, so the engine is verified for every
    implementation of them. [Split] gives the two components [r[0]] and
    [r[1]] that [getUsers] reads. *)
Class Package : Type :=
  { ELLIPSIS : string;
    Split : Relation -> Relation * Relation;
    Equals : User -> User -> bool;
    IsUser : User -> bool;
    ConvertObject : string -> Object * option error;
    ConvertUser : string -> User }.

End tuple.

Module entities.

(** The fields of a stored relation tuple that [getUsers] reads. *)
Record RelationTuple : Type :=
  { UsersetEntity : string;
    UsersetObjectID : string;
    UsersetRelation : string }.

End entities.

Module repositories.

(** [QueryTuples ctx namespace id relation]. *)
Record IRelationTupleRepository : Type :=
  { QueryTuples :
      string -> string -> string -> list entities.RelationTuple * option error }.

End repositories.

Module schema.

(** [GetType] of a rewrite and of a leaf, and [GetKind] of a child, are
    strings compared with the known names; the last constructor of each
    type is any other string. *)
Inductive OPType : Type :=
| Union
| Intersection
| OtherOP (name : string).

Inductive LeafType : Type :=
| TupleToUserSetType
| ComputedUserSetType
| OtherLeafType (name : string).

Inductive Child : Type :=
| Rewrite (type : OPType) (children : list Child)
| Leaf (type : LeafType) (value : string)
| OtherKind (kind : string).

Record Action : Type := { Name : string; Action_Child : Child }.

Record Entity : Type := { Actions : list Action }.

(** [Schema.Entities], a Go map: a missing key reads as the zero entity. *)
Definition Schema : Type := list (string * Entity).

Fixpoint Entities (s : Schema) (namespace : string) : Entity :=
  match s with
  | [] => {| Actions := [] |}
  | (k, e) :: s' => if String.eqb k namespace then e else Entities s' namespace
  end.

End schema.

Record PermissionService : Type :=
  { repository : repositories.IRelationTupleRepository;
    schema : schema.Schema }.

(** ** The state the goroutines of one call share *)

Definition loc : Type := nat.

(** Location 0 reads as the nil pointer: the heap of a running service
    starts with one cell that no request points to after [SetDepth]. *)
Definition nil_loc : loc := 0.

Record World : Type :=
  { heap : list Z;
    queries : list (string * string * string);
    schedule : list nat }.

Definition load (p : loc) (w : World) : Z := nth p (heap w) 0%Z.

Fixpoint update (p : loc) (v : Z) (h : list Z) : list Z :=
  match h, p with
  | [], _ => []
  | _ :: h', O => v :: h'
  | x :: h', S p' => x :: update p' v h'
  end.

Definition store (p : loc) (v : Z) (w : World) : World :=
  {| heap := update p v (heap w);
     queries := queries w;
     schedule := schedule w |}.

Definition alloc (v : Z) (w : World) : loc * World :=
  (List.length (heap w),
   {| heap := heap w ++ [v];
      queries := queries w;
      schedule := schedule w |}).

Definition logQuery (q : string * string * string) (w : World) : World :=
  {| heap := heap w;
     queries := queries w ++ [q];
     schedule := schedule w |}.

Definition popSchedule (w : World) : World :=
  {| heap := heap w;
     queries := queries w;
     schedule := tl (schedule w) |}.

(** A Go [int] of 64 bits. *)
Definition wrap (z : Z) : Z := ((z + 2 ^ 63) mod 2 ^ 64 - 2 ^ 63)%Z.

(** ** Request *)

Record Request : Type :=
  { Object : tuple.Object;
    Subject : tuple.User;
    depth : loc }.

(** [r.depth = &i]: a new cell holding [i]. *)
Definition SetDepth (r : Request) (i : Z) (w : World) : Request * World :=
  let '(p, w') := alloc i w in
  ({| Object := Object r; Subject := Subject r; depth := p |}, w').

(** [*r.depth--; return r]: the cell is written in place and the same
    request comes back. *)
Definition decrease (r : Request) (w : World) : Request * World :=
  (r, store (depth r) (wrap (load (depth r) w - 1)) w).

Definition isFinish (r : Request) (w : World) : bool :=
  (load (depth r) w <=? 0)%Z.

(** ** Check functions and what a [select] sees *)

(** [canceled ctx]: the scope is found canceled by a [select] before a
    decision is available to it. *)
Record Context : Type := { canceled : bool }.

Inductive Status : Type :=
| Returned
| Blocked
| OutOfFuel.

(** What one goroutine running a check function does to its channel: the
    decisions it writes, in order (a write the channel has no room for
    waits for the reader, which [Run] does not record), and whether the
    function then returns, waits for ever, or was followed no further. *)
Record Run : Type := { sent : list Decision; status : Status }.

Definition CheckFunction : Type := Context -> World -> Run * World.

(** What a call gives back: a value, or it never returns, or it was not
    followed to its end. *)
Inductive Outcome (A : Type) : Type :=
| Returns (a : A)
| Blocks
| Unknown.

Arguments Returns {A} a.
Arguments Blocks {A}.
Arguments Unknown {A}.

Definition Combiner : Type :=
  Context -> list CheckFunction -> World -> Outcome Decision * World.

(** One pick of a [select]: a decision read from [decisionChan], or
    [ctx.Done()]. *)
Inductive Arrival : Type :=
| Recv (result : Decision)
| CtxDone.

Definition isNil (e : option error) : bool :=
  match e with None => true | Some _ => false end.

(** [resultChan <- d; return] for a value [d] that a call may never give. *)
Definition report (o : Outcome Decision) : Run :=
  match o with
  | Returns d => {| sent := [d]; status := Returned |}
  | Blocks => {| sent := []; status := Blocked |}
  | Unknown => {| sent := []; status := OutOfFuel |}
  end.

(** ** fail *)

Definition fail (err : option error) : CheckFunction :=
  fun _ w => ({| sent := [sendDecision false err]; status := Returned |}, w).

(** ** The combiners *)

Fixpoint removeNth {A : Type} (k : nat) (l : list A) : list A :=
  match l, k with
  | [], _ => []
  | _ :: l', O => l'
  | x :: l', S k' => x :: removeNth k' l'
  end.

(** [for _, fn := range functions { go fn(childCtx, decisionChan) }].
    The goroutines run one at a time, each as far as the model follows it,
    in the order the scheduler picks among those not yet run. This is a
    coarser scheduler than Go's: the decisions of one goroutine arrive
    together and in the order of its effects on the depth cell, so
    outcomes that need the steps of two goroutines interleaved are not
    produced. *)
Fixpoint launch (n : nat) (childCtx : Context) (pending : list CheckFunction)
  (w : World) : list Run * World :=
  match n, pending with
  | S n', fn0 :: _ =>
      let k := Nat.modulo (hd 0 (schedule w)) (List.length pending) in
      let '(r, w1) := nth k pending fn0 childCtx (popSchedule w) in
      let '(rs, w2) := launch n' childCtx (removeNth k pending) w1 in
      (r :: rs, w2)
  | _, _ => ([], w)
  end.

(** What the [select] loop of a combiner picks, one entry per iteration. *)
Definition arrivals (ctx : Context) (runs : list Run) : list Arrival :=
  (if canceled ctx then [CtxDone] else []) ++ map Recv (flat_map sent runs).

Definition outOfFuel (r : Run) : bool :=
  match status r with OutOfFuel => true | _ => false end.

(** A loop that has read all there is and still waits. *)
Definition await (picked : option Decision) (runs : list Run)
  : Outcome Decision :=
  match picked with
  | Some d => Returns d
  | None => if existsb outOfFuel runs then Unknown else Blocks
  end.

(** [for i := 0; i < len(functions); i++ { select { ... } }] of [union],
    with [n] iterations left. *)
Fixpoint unionLoop (n : nat) (picks : list Arrival) : option Decision :=
  match n with
  | O => Some (sendDecision false None)
  | S n' =>
      match picks with
      | [] => None
      | Recv result :: picks' =>
          if isNil (Err result) && Can result then
            Some (sendDecision true None)
          else if negb (isNil (Err result)) then
            Some (sendDecision false (Err result))
          else unionLoop n' picks'
      | CtxDone :: _ => Some (sendDecision false (Some CanceledError))
      end
  end.

Definition union : Combiner :=
  fun ctx functions w =>
    if Nat.eqb (List.length functions) 0 then
      (Returns (sendDecision false None), w)
    else
      let childCtx := ctx in
      let '(runs, w') := launch (List.length functions) childCtx functions w in
      (await (unionLoop (List.length functions) (arrivals ctx runs)) runs, w').

Fixpoint intersectionLoop (n : nat) (picks : list Arrival)
  : option Decision :=
  match n with
  | O => Some (sendDecision true None)
  | S n' =>
      match picks with
      | [] => None
      | Recv result :: picks' =>
          if isNil (Err result) && negb (Can result) then
            Some (sendDecision false None)
          else if negb (isNil (Err result)) then
            Some (sendDecision false (Err result))
          else intersectionLoop n' picks'
      | CtxDone :: _ => Some (sendDecision false (Some CanceledError))
      end
  end.

Definition intersection : Combiner :=
  fun ctx functions w =>
    if Nat.eqb (List.length functions) 0 then
      (Returns (sendDecision false None), w)
    else
      let childCtx := ctx in
      let '(runs, w') := launch (List.length functions) childCtx functions w in
      (await (intersectionLoop (List.length functions) (arrivals ctx runs)) runs,
       w').

(** What [union] and [intersection] return over [n] functions when their
    selects pick [picks]: the test on [len(functions)], then the loop. *)
Definition unionOver (n : nat) (picks : list Arrival) : option Decision :=
  if Nat.eqb n 0 then Some (sendDecision false None) else unionLoop n picks.

Definition intersectionOver (n : nat) (picks : list Arrival)
  : option Decision :=
  if Nat.eqb n 0 then Some (sendDecision false None)
  else intersectionLoop n picks.

(** A decision that carries no error. *)
Definition clean (d : Decision) : Prop := Err d = None.

(** ** The service *)

Section Service.

Context {pkg : tuple.Package}.
Variable service : PermissionService.

(** One stored tuple as [getUsers] reads it: a userset edge when
    [UsersetEntity] is set, a literal user otherwise. *)
Definition userOf (r1 : tuple.Relation) (entity : entities.RelationTuple)
  : tuple.User :=
  if negb (String.eqb (entities.UsersetEntity entity) "") then
    {| tuple.User_UserSet :=
         {| tuple.UserSet_Object :=
              {| tuple.Namespace := entities.UsersetEntity entity;
                 tuple.ID := entities.UsersetObjectID entity |};
            tuple.UserSet_Relation :=
              if String.eqb (entities.UsersetRelation entity) tuple.ELLIPSIS
              then r1
              else entities.UsersetRelation entity |};
       tuple.User_ID := "" |}
  else
    {| tuple.User_UserSet :=
         {| tuple.UserSet_Object := {| tuple.Namespace := ""; tuple.ID := "" |};
            tuple.UserSet_Relation := "" |};
       tuple.User_ID := entities.UsersetObjectID entity |}.

Definition getUsers (object : tuple.Object) (relation : tuple.Relation)
  (w : World) : (list tuple.User * option error) * World :=
  let r := tuple.Split relation in
  let w1 := logQuery (tuple.Namespace object, tuple.ID object, fst r) w in
  let '(en, err) :=
    repositories.QueryTuples (repository service)
      (tuple.Namespace object) (tuple.ID object) (fst r) in
  match err with
  | Some e => (([], Some e), w1)
  | None => ((map (userOf (snd r)) en, None), w1)
  end.

(** [for _, t := range users { ... }] of [check], with the decision sent
    after the loop; [rec] is [service.check] and [err] the variable the
    decisions carry. *)
Fixpoint scan
  (rec : tuple.Object -> tuple.Relation -> Request -> CheckFunction)
  (re : Request) (err : option error) (ctx : Context)
  (users : list tuple.User) (w : World) : Run * World :=
  match users with
  | [] => ({| sent := [sendDecision false err]; status := Returned |}, w)
  | t :: users' =>
      if tuple.Equals t (Subject re) then
        ({| sent := [sendDecision true err]; status := Returned |}, w)
      else if negb (tuple.IsUser t) then
        let '(_, w1) := decrease re w in
        let '(o, w2) :=
          union ctx
            [rec (tuple.UserSet_Object (tuple.User_UserSet t))
                 (tuple.UserSet_Relation (tuple.User_UserSet t)) re] w1 in
        (report o, w2)
      else scan rec re err ctx users' w
  end.

(** The users the scan passes over before it acts: literal users other
    than the subject. *)
Definition passed (re : Request) (u : tuple.User) : Prop :=
  tuple.Equals u (Subject re) = false /\ tuple.IsUser u = true.

(** The depth guard of [check]: it writes [DepthError] and the function
    goes on. *)
Definition depthGuard (re : Request) (w : World) : list Decision :=
  if isFinish re w then [sendDecision false (Some DepthError)] else [].

(** The function [service.check] returns, run for [fuel] generations of
    recursive checks. On a store error [fail(err)] is built and dropped. *)
Fixpoint check (fuel : nat) (object : tuple.Object)
  (relation : tuple.Relation) (re : Request) (ctx : Context) (w : World)
  {struct fuel} : Run * World :=
  match fuel with
  | O => ({| sent := []; status := OutOfFuel |}, w)
  | S fuel' =>
      let guard := depthGuard re w in
      let '((users, err), w1) := getUsers object relation w in
      match err with
      | Some _ =>
          let _ := fail err in
          ({| sent := guard; status := Returned |}, w1)
      | None =>
          let '(r, w2) := scan (check fuel') re err ctx users w1 in
          ({| sent := guard ++ sent r; status := status r |}, w2)
      end
  end.

Definition checkLeaf (fuel : nat) (request : Request)
  (type : schema.LeafType) (value : string) : CheckFunction :=
  match type with
  | schema.TupleToUserSetType => check fuel (Object request) value request
  | schema.ComputedUserSetType => check fuel (Object request) value request
  | schema.OtherLeafType _ => fail (Some UndefinedChildTypeError)
  end.

(** The loop of [set]: one function per child, or nothing when a child is
    of neither kind. *)
Fixpoint functionsOf (switch : schema.Child -> option CheckFunction)
  (children : list schema.Child) : option (list CheckFunction) :=
  match children with
  | [] => Some []
  | child :: children' =>
      match switch child with
      | None => None
      | Some fn =>
          match functionsOf switch children' with
          | None => None
          | Some functions => Some (fn :: functions)
          end
      end
  end.

(** [kind request child] is the [switch child.GetKind()] that [set] and
    [c] share. *)
Definition set (kind : Request -> schema.Child -> option CheckFunction)
  (request : Request) (children : list schema.Child) (combiner : Combiner)
  : CheckFunction :=
  match functionsOf (kind request) children with
  | None => fail (Some UndefinedChildKindError)
  | Some functions =>
      fun ctx w => let '(o, w') := combiner ctx functions w in (report o, w')
  end.

Definition checkRewrite
  (kind : Request -> schema.Child -> option CheckFunction)
  (request : Request) (type : schema.OPType) (children : list schema.Child)
  : CheckFunction :=
  match type with
  | schema.Union => set kind request children union
  | schema.Intersection => set kind request children intersection
  | schema.OtherOP _ => fail (Some UndefinedChildTypeError)
  end.

Fixpoint kindSwitch (fuel : nat) (request : Request) (child : schema.Child)
  {struct child} : option CheckFunction :=
  match child with
  | schema.Rewrite type children =>
      Some (checkRewrite (kindSwitch fuel) request type children)
  | schema.Leaf type value => Some (checkLeaf fuel request type value)
  | schema.OtherKind _ => None
  end.

Definition c (fuel : nat) (ctx : Context) (request : Request)
  (child : schema.Child) (w : World)
  : Outcome (bool * option error) * World :=
  match kindSwitch fuel request child with
  | None => (Returns (false, Some UndefinedChildKindError), w)
  | Some fn =>
      let '(o, w') := union ctx [fn] w in
      (match o with
       | Returns result => Returns (Can result, Err result)
       | Blocks => Blocks
       | Unknown => Unknown
       end, w')
  end.

(** [for _, act := range entity.Actions { if act.Name == a { ... } }]. *)
Fixpoint findAction (a : string) (actions : list schema.Action)
  : option schema.Child :=
  match actions with
  | [] => None
  | act :: actions' =>
      if String.eqb (schema.Name act) a then Some (schema.Action_Child act)
      else findAction a actions'
  end.

Definition Check (fuel : nat) (ctx : Context) (s a o : string) (d : Z)
  (w : World) : Outcome (bool * option error) * World :=
  let '(object, err) := tuple.ConvertObject o in
  match err with
  | Some _ => (Returns (false, err), w)
  | None =>
      let entity := schema.Entities (schema service) (tuple.Namespace object) in
      match findAction a (schema.Actions entity) with
      | None => (Returns (false, Some ActionCannotFoundError), w)
      | Some child =>
          let re := {| Object := object;
                       Subject := tuple.ConvertUser s;
                       depth := nil_loc |} in
          let '(re', w1) := SetDepth re d w in
          c fuel ctx re' child w1
      end
  end.

End Service.

(** ** Notions the further properties are stated with *)

(** From [w] to [w'] no cell was made and no cell but [p] was written. *)
Definition keeps (p : loc) (w w' : World) : Prop :=
  List.length (heap w') = List.length (heap w)
  /\ forall q, q <> p -> load q w' = load q w.

(** What the union over one function gives once the function has run as
    [r]. *)
Definition unionOfRun (ctx : Context) (r : Run) : Outcome Decision :=
  await (unionLoop 1 (arrivals ctx [r])) [r].

(** A check function that makes no cell and writes no cell but [p]. *)
Definition framed (p : loc) (fn : CheckFunction) : Prop :=
  forall ctx w, keeps p w (snd (fn ctx w)).

(** [n] calls of [decrease] on the request, one after the other. *)
Definition decreases (n : nat) (re : Request) (w : World) : World :=
  Nat.iter n (fun w' => snd (decrease re w')) w.

(** On a heap [h], the function writes the one decision [d] and returns,
    with the heap as it was. *)
Definition settles (h : list Z) (fn : CheckFunction) (d : Decision) : Prop :=
  forall ctx w,
    heap w = h ->
    fst (fn ctx w) = {| sent := [d]; status := Returned |}
    /\ heap (snd (fn ctx w)) = h.

(** The run of a function that writes [d] and returns. *)
Definition justSent (d : Decision) : Run :=
  {| sent := [d]; status := Returned |}.


(** A run that wrote at least one decision. *)
Definition reports (r : Run) : Prop := sent r <> [].

(** The decision with allowed and denied exchanged; one that carries an
    error is left as it is. *)
Definition negate (d : Decision) : Decision :=
  if isNil (Err d) then sendDecision (negb (Can d)) None else d.

(** A pick whose decision has [Can] flipped. *)
Definition flipPick (a : Arrival) : Arrival :=
  match a with
  | Recv result => Recv {| Can := negb (Can result); Err := Err result |}
  | CtxDone => CtxDone
  end.

Definition swapLeafType (type : schema.LeafType) : schema.LeafType :=
  match type with
  | schema.TupleToUserSetType => schema.ComputedUserSetType
  | schema.ComputedUserSetType => schema.TupleToUserSetType
  | schema.OtherLeafType name => schema.OtherLeafType name
  end.

(** The rule tree with the two leaf types exchanged throughout. *)
Fixpoint swapLeafTypes (child : schema.Child) : schema.Child :=
  match child with
  | schema.Rewrite type children =>
      schema.Rewrite type (map swapLeafTypes children)
  | schema.Leaf type value => schema.Leaf (swapLeafType type) value
  | schema.OtherKind kind => schema.OtherKind kind
  end.

(** ** A concrete package, store and schema to run the engine on *)

Module Demo.

(** The part of [s] before the first [sep] and the part after it. *)
Fixpoint splitAt (sep : Ascii.ascii) (s : string) : option (string * string) :=
  match s with
  | EmptyString => None
  | String ch s' =>
      if Ascii.eqb ch sep then Some (EmptyString, s')
      else match splitAt sep s' with
           | None => None
           | Some (a, b) => Some (String ch a, b)
           end
  end.

Definition objectEqb (a b : tuple.Object) : bool :=
  String.eqb (tuple.Namespace a) (tuple.Namespace b)
  && String.eqb (tuple.ID a) (tuple.ID b).

Definition literal (id : string) : tuple.User :=
  {| tuple.User_UserSet :=
       {| tuple.UserSet_Object := {| tuple.Namespace := ""; tuple.ID := "" |};
          tuple.UserSet_Relation := "" |};
     tuple.User_ID := id |}.

Definition userset (namespace id relation : string) : tuple.User :=
  {| tuple.User_UserSet :=
       {| tuple.UserSet_Object :=
            {| tuple.Namespace := namespace; tuple.ID := id |};
          tuple.UserSet_Relation := relation |};
     tuple.User_ID := "" |}.

(** Modelled from the spec: pkg/tuple is not among the source files. A
    relation name is optionally composite as "tuplesetRelation.defaultRelation";
    equality of subjects is structural (namespace, id and relation, or the
    literal id); a subject is a literal when it names no userset object;
    an object is written "namespace:id", a subject either so or as a bare
    literal id; the self-reference marker is the ellipsis. *)
#[global] Instance package : tuple.Package :=
  {| tuple.ELLIPSIS := "...";
     tuple.Split := fun r =>
       match splitAt "."%char r with
       | Some (a, b) => (a, b)
       | None => (r, "")
       end;
     tuple.Equals := fun u v =>
       objectEqb (tuple.UserSet_Object (tuple.User_UserSet u))
                 (tuple.UserSet_Object (tuple.User_UserSet v))
       && String.eqb (tuple.UserSet_Relation (tuple.User_UserSet u))
                     (tuple.UserSet_Relation (tuple.User_UserSet v))
       && String.eqb (tuple.User_ID u) (tuple.User_ID v);
     tuple.IsUser := fun u =>
       String.eqb (tuple.Namespace (tuple.UserSet_Object (tuple.User_UserSet u))) "";
     tuple.ConvertObject := fun o =>
       match splitAt ":"%char o with
       | Some (a, b) => ({| tuple.Namespace := a; tuple.ID := b |}, None)
       | None => ({| tuple.Namespace := ""; tuple.ID := "" |},
                  Some (ExternalError "input is not suitable for the object"))
       end;
     tuple.ConvertUser := fun s =>
       match splitAt ":"%char s with
       | Some (a, b) => userset a b ""
       | None => literal s
       end |}.

Definition grant (id : string) : entities.RelationTuple :=
  {| entities.UsersetEntity := "";
     entities.UsersetObjectID := id;
     entities.UsersetRelation := "" |}.

Definition edge (namespace id relation : string) : entities.RelationTuple :=
  {| entities.UsersetEntity := namespace;
     entities.UsersetObjectID := id;
     entities.UsersetRelation := relation |}.

(** doc:1 is owned by alice and edited by nobody; its viewers are the
    members of group:g1, whose members are the viewers of doc:1; the
    viewers of doc:3 are the members of group:g2, where bob is; doc:2
    cannot be read. *)
Definition facts (namespace id relation : string)
  : list entities.RelationTuple * option error :=
  if String.eqb namespace "doc" && String.eqb id "2" then
    ([], Some (ExternalError "store down"))
  else if String.eqb namespace "doc" && String.eqb id "1"
          && String.eqb relation "owner" then
    ([grant "alice"], None)
  else if String.eqb namespace "doc" && String.eqb id "1"
          && String.eqb relation "viewer" then
    ([edge "group" "g1" "member"], None)
  else if String.eqb namespace "group" && String.eqb id "g1"
          && String.eqb relation "member" then
    ([edge "doc" "1" "viewer"], None)
  else if String.eqb namespace "doc" && String.eqb id "3"
          && String.eqb relation "viewer" then
    ([edge "group" "g2" "member"], None)
  else if String.eqb namespace "doc" && String.eqb id "3"
          && String.eqb relation "owner" then
    ([grant "bob"], None)
  else if String.eqb namespace "group" && String.eqb id "g2"
          && String.eqb relation "member" then
    ([grant "bob"], None)
  else ([], None).

Definition rules : schema.Schema :=
  [("doc",
    {| schema.Actions :=
         [ {| schema.Name := "view";
              schema.Action_Child :=
                schema.Rewrite schema.Union
                  [schema.Leaf schema.ComputedUserSetType "owner";
                   schema.Leaf schema.TupleToUserSetType "parent.view"] |};
           {| schema.Name := "edit";
              schema.Action_Child :=
                schema.Rewrite schema.Intersection
                  [schema.Leaf schema.ComputedUserSetType "owner";
                   schema.Leaf schema.ComputedUserSetType "editor"] |};
           {| schema.Name := "view_via_viewer";
              schema.Action_Child :=
                schema.Leaf schema.ComputedUserSetType "viewer" |};
           {| schema.Name := "read";
              schema.Action_Child :=
                schema.Rewrite schema.Union
                  [schema.Leaf schema.ComputedUserSetType "viewer";
                   schema.Leaf schema.ComputedUserSetType "owner"] |} ] |})].

Definition service : PermissionService :=
  {| repository := {| repositories.QueryTuples := facts |};
     schema := rules |}.

(** A world with the nil cell only, where the scheduler starts the
    goroutines of every combiner in the order of the list. *)
Definition world0 : World :=
  {| heap := [0%Z]; queries := []; schedule := [] |}.

Definition background : Context := {| canceled := false |}.
Definition expired : Context := {| canceled := true |}.

Definition doc (id : string) : tuple.Object :=
  {| tuple.Namespace := "doc"; tuple.ID := id |}.

(** A request of [subject] on [object] whose depth cell is cell 1. *)
Definition request (object : tuple.Object) (subject : string) : Request :=
  {| Object := object; Subject := tuple.ConvertUser subject; depth := 1 |}.

(** A world whose cell 1 holds [d]. *)
Definition worldAt (d : Z) : World :=
  {| heap := [0%Z; d]; queries := []; schedule := [] |}.

End Demo.

(** The store of [Demo] under rules whose actions are single leaves, the
    name "own" borne twice. *)
Module Leaves.

Definition rules : schema.Schema :=
  [("doc",
    {| schema.Actions :=
         [ {| schema.Name := "watch";
              schema.Action_Child :=
                schema.Leaf schema.TupleToUserSetType "viewer" |};
           {| schema.Name := "own";
              schema.Action_Child :=
                schema.Leaf schema.ComputedUserSetType "owner" |};
           {| schema.Name := "own";
              schema.Action_Child :=
                schema.Leaf schema.ComputedUserSetType "editor" |} ] |})].

Definition service : PermissionService :=
  {| repository := {| repositories.QueryTuples := Demo.facts |};
     schema := rules |}.

End Leaves.


(** Scenarios A, B and C of the specification, and an unknown action. *)
Example scenario_A_alice :
  fst (Check Demo.service 4 Demo.background
         "alice" "view" "doc:1" 5 Demo.world0)
  = Returns (true, None).
Proof. vm_compute. reflexivity. Qed.

Example scenario_A_bob :
  fst (Check Demo.service 4 Demo.background
         "bob" "view" "doc:1" 5 Demo.world0)
  = Returns (false, None).
Proof. vm_compute. reflexivity. Qed.

Example scenario_B :
  fst (Check Demo.service 4 Demo.background
         "alice" "edit" "doc:1" 5 Demo.world0)
  = Returns (false, None).
Proof. vm_compute. reflexivity. Qed.

Example scenario_C :
  fst (Check Demo.service 4 Demo.background
         "carol" "view_via_viewer" "doc:1" 2 Demo.world0)
  = Returns (false, Some DepthError).
Proof. vm_compute. reflexivity. Qed.

(** ** The select loops *)




Ltac by_cases := unfold sound; cbn; congruence.
Ltac decided := intros [= <-]; by_cases.

Lemma unionLoop_sound (n : nat) (picks : list Arrival) (d : Decision) :
  unionLoop n picks = Some d -> sound d.
Proof.
  revert picks. induction n as [|n IH]; intros picks; cbn; [decided|].
  destruct picks as [|[result|] picks]; [discriminate| |decided].
  destruct (isNil (Err result) && Can result); [decided|].
  destruct (negb (isNil (Err result))); [decided|apply IH].
Qed.

Lemma intersectionLoop_sound (n : nat) (picks : list Arrival) (d : Decision) :
  intersectionLoop n picks = Some d -> sound d.
Proof.
  revert picks. induction n as [|n IH]; intros picks; cbn; [decided|].
  destruct picks as [|[result|] picks]; [discriminate| |decided].
  destruct (isNil (Err result) && negb (Can result)); [decided|].
  destruct (negb (isNil (Err result))); [decided|apply IH].
Qed.

Lemma await_returns (picked : option Decision) (runs : list Run)
  (d : Decision) :
  await picked runs = Returns d -> picked = Some d.
Proof.
  destruct picked; cbn; [congruence|].
  destruct (existsb outOfFuel runs); discriminate.
Qed.

Lemma union_sound (ctx : Context) (functions : list CheckFunction)
  (w : World) (d : Decision) :
  fst (union ctx functions w) = Returns d -> sound d.
Proof.
  unfold union. destruct (Nat.eqb (List.length functions) 0).
  - cbn. decided.
  - destruct (launch _ _ _ _) as [runs w']. cbn.
    intros H. apply await_returns in H. eapply unionLoop_sound, H.
Qed.

Lemma intersection_sound (ctx : Context) (functions : list CheckFunction)
  (w : World) (d : Decision) :
  fst (intersection ctx functions w) = Returns d -> sound d.
Proof.
  unfold intersection. destruct (Nat.eqb (List.length functions) 0).
  - cbn. decided.
  - destruct (launch _ _ _ _) as [runs w']. cbn.
    intros H. apply await_returns in H. eapply intersectionLoop_sound, H.
Qed.

Lemma report_sound (o : Outcome Decision) :
  (forall d, o = Returns d -> sound d) -> Forall sound (sent (report o)).
Proof.
  destruct o; cbn; intros H; constructor; auto.
Qed.

(** What a union over one function does: the function runs in the world
    the scheduler leaves, and the loop reads once. *)
Lemma union_one (ctx : Context) (fn : CheckFunction) (w : World) :
  union ctx [fn] w
  = let '(r, w') := fn ctx (popSchedule w) in
    (await (unionLoop 1 (arrivals ctx [r])) [r], w').
Proof.
  unfold union. cbn.
  destruct (fn ctx (popSchedule w)) as [r w']. reflexivity.
Qed.

(** What a combiner gives is what its test and loop give on the
    decisions the launched goroutines write, after the scope's signal if
    it is set. *)
Lemma union_reads_arrivals (ctx : Context) (functions : list CheckFunction)
  (w : World) :
  fst (union ctx functions w)
  = let runs := fst (launch (List.length functions) ctx functions w) in
    await (unionOver (List.length functions) (arrivals ctx runs)) runs.
Proof.
  unfold union, unionOver. destruct functions as [|fn functions];
    [reflexivity|].
  cbn [List.length Nat.eqb].
  destruct (launch _ _ _ _) as [runs w']. reflexivity.
Qed.

Lemma intersection_reads_arrivals (ctx : Context)
  (functions : list CheckFunction) (w : World) :
  fst (intersection ctx functions w)
  = let runs := fst (launch (List.length functions) ctx functions w) in
    await (intersectionOver (List.length functions) (arrivals ctx runs)) runs.
Proof.
  unfold intersection, intersectionOver.
  destruct functions as [|fn functions]; [reflexivity|].
  cbn [List.length Nat.eqb].
  destruct (launch _ _ _ _) as [runs w']. reflexivity.
Qed.

Lemma unionOver_loop (n : nat) (picks : list Arrival) :
  unionOver n picks = unionLoop n picks.
Proof. destruct n; reflexivity. Qed.

Lemma intersectionOver_loop (n : nat) (picks : list Arrival) :
  (0 < n)%nat -> intersectionOver n picks = intersectionLoop n picks.
Proof. destruct n; [lia|reflexivity]. Qed.

Lemma existsb_Permutation {A : Type} (f : A -> bool) {l l' : list A} :
  Permutation l l' -> existsb f l = existsb f l'.
Proof.
  induction 1 as [|x l l' _ IH|x y l|l l' l'' _ IH1 _ IH2]; cbn.
  - reflexivity.
  - rewrite IH. reflexivity.
  - destruct (f x), (f y); reflexivity.
  - congruence.
Qed.

Lemma forallb_Permutation {A : Type} (f : A -> bool) {l l' : list A} :
  Permutation l l' -> forallb f l = forallb f l'.
Proof.
  induction 1 as [|x l l' _ IH|x y l|l l' l'' _ IH1 _ IH2]; cbn.
  - reflexivity.
  - rewrite IH. reflexivity.
  - destruct (f x), (f y); reflexivity.
  - congruence.
Qed.

(** With no error among them, the decisions fold to "some is allowed"
    in the union loop and to "all are allowed" in the intersection loop. *)
Lemma unionLoop_clean (ds : list Decision) :
  Forall clean ds ->
  unionLoop (List.length ds) (map Recv ds)
  = Some (sendDecision (existsb Can ds) None).
Proof.
  induction 1 as [|d ds Hd _ IH]; [reflexivity|].
  cbn. rewrite Hd. cbn. destruct (Can d); [reflexivity|exact IH].
Qed.

Lemma intersectionLoop_clean (ds : list Decision) :
  Forall clean ds ->
  intersectionLoop (List.length ds) (map Recv ds)
  = Some (sendDecision (forallb Can ds) None).
Proof.
  induction 1 as [|d ds Hd _ IH]; [reflexivity|].
  cbn. rewrite Hd. cbn. destruct (Can d); [exact IH|reflexivity].
Qed.



(** ** The leaf resolver and the entry point *)

Section Properties.

Context {pkg : tuple.Package}.
Variable service : PermissionService.

Lemma scan_sound
  (rec : tuple.Object -> tuple.Relation -> Request -> CheckFunction)
  (re : Request) (ctx : Context) (users : list tuple.User) (w : World) :
  Forall sound (sent (fst (scan rec re None ctx users w))).
Proof.
  induction users as [|t users IH]; cbn -[union].
  - constructor; [by_cases|constructor].
  - destruct (tuple.Equals t (Subject re)); cbn -[union].
    + constructor; [by_cases|constructor].
    + destruct (negb (tuple.IsUser t)); [|exact IH].
      destruct (union _ _ _) as [o w2] eqn:E. cbn.
      apply report_sound. intros d ->.
      eapply union_sound. rewrite E. reflexivity.
Qed.

Lemma depthGuard_sound (re : Request) (w : World) :
  Forall sound (depthGuard re w).
Proof.
  unfold depthGuard.
  destruct (isFinish re w); constructor; [by_cases|constructor].
Qed.

Lemma check_sound (fuel : nat) (object : tuple.Object)
  (relation : tuple.Relation) (re : Request) (ctx : Context) (w : World) :
  Forall sound (sent (fst (check service fuel object relation re ctx w))).
Proof.
  destruct fuel as [|fuel]; cbn; [constructor|].
  destruct (getUsers service object relation w) as [[users err] w1].
  destruct err as [e|]; cbn; [apply depthGuard_sound|].
  pose proof (scan_sound (check service fuel) re ctx users w1) as Hs.
  destruct (scan _ _ _ _ _ _) as [r w2]. cbn in *.
  apply Forall_app. split; [apply depthGuard_sound|exact Hs].
Qed.

(** C10. Whatever the union loop, the intersection loop, the two
    combiners, a leaf check task or a fail task gives, in every run: a
    decision that is allowed carries no error. *)
Theorem allowed_decisions_carry_no_error :
  (forall n picks,
      match unionLoop n picks with Some d => sound d | None => True end)
  /\ (forall n picks,
      match intersectionLoop n picks with Some d => sound d | None => True end)
  /\ (forall ctx functions w,
      match fst (union ctx functions w) with
      | Returns d => sound d
      | _ => True
      end)
  /\ (forall ctx functions w,
      match fst (intersection ctx functions w) with
      | Returns d => sound d
      | _ => True
      end)
  /\ (forall fuel object relation re ctx w,
      Forall sound (sent (fst (check service fuel object relation re ctx w))))
  /\ (forall err ctx w, Forall sound (sent (fst (fail err ctx w)))).
Proof.
  split; [|split; [|split; [|split; [|split]]]].
  - intros n picks. destruct (unionLoop n picks) eqn:E; [|exact I].
    eapply unionLoop_sound, E.
  - intros n picks. destruct (intersectionLoop n picks) eqn:E; [|exact I].
    eapply intersectionLoop_sound, E.
  - intros ctx functions w.
    destruct (fst (union ctx functions w)) eqn:E; try exact I.
    eapply union_sound, E.
  - intros ctx functions w.
    destruct (fst (intersection ctx functions w)) eqn:E; try exact I.
    eapply intersection_sound, E.
  - apply check_sound.
  - intros err ctx w. cbn. constructor; [by_cases|constructor].
Qed.

Lemma scan_first_edge
  (rec : tuple.Object -> tuple.Relation -> Request -> CheckFunction)
  (re : Request) (err : option error) (ctx : Context)
  (before : list tuple.User) (t : tuple.User) (after : list tuple.User)
  (w : World) :
  Forall (passed re) before ->
  tuple.Equals t (Subject re) = false ->
  tuple.IsUser t = false ->
  scan rec re err ctx (before ++ t :: after) w
  = let '(o, w2) :=
      union ctx
        [rec (tuple.UserSet_Object (tuple.User_UserSet t))
             (tuple.UserSet_Relation (tuple.User_UserSet t)) re]
        (snd (decrease re w)) in
    (report o, w2).
Proof.
  intros Hb Ht Hu. induction Hb as [|u before [Hne Hlit] _ IH]; cbn -[union].
  - rewrite Ht, Hu. reflexivity.
  - rewrite Hne, Hlit. exact IH.
Qed.

Lemma update_length (p : loc) (v : Z) (h : list Z) :
  List.length (update p v h) = List.length h.
Proof.
  revert p. induction h as [|x h IH]; intros [|p]; cbn; auto.
Qed.

Lemma nth_update (p : loc) (v : Z) (h : list Z) :
  (p < List.length h)%nat -> nth p (update p v h) 0%Z = v.
Proof.
  revert p. induction h as [|x h IH]; intros [|p]; cbn; intros H;
    [lia|lia|reflexivity|apply IH; lia].
Qed.

Lemma wrap_small (z : Z) :
  (- 2 ^ 63 <= z < 2 ^ 63)%Z -> wrap z = z.
Proof.
  intros H. unfold wrap. rewrite Z.mod_small; lia.
Qed.

Lemma load_decrease (re : Request) (w : World) :
  (depth re < List.length (heap w))%nat ->
  load (depth re) (snd (decrease re w)) = wrap (load (depth re) w - 1).
Proof.
  intros H. unfold decrease, load, store. cbn. apply nth_update, H.
Qed.

Lemma getUsers_heap (object : tuple.Object) (relation : tuple.Relation)
  (w : World) :
  heap (snd (getUsers service object relation w)) = heap w.
Proof.
  unfold getUsers.
  destruct (repositories.QueryTuples _ _ _ _) as [en [e|]]; reflexivity.
Qed.

(** A leaf whose users hold a first userset edge other than the subject:
    the guard, the decrement, and the union over the one recursive check. *)
Lemma check_at_first_edge (fuel : nat) (object : tuple.Object)
  (relation : tuple.Relation) (re : Request) (ctx : Context) (w : World)
  (before : list tuple.User) (t : tuple.User) (after : list tuple.User)
  (w1 : World) :
  getUsers service object relation w = ((before ++ t :: after, None), w1) ->
  Forall (passed re) before ->
  tuple.Equals t (Subject re) = false ->
  tuple.IsUser t = false ->
  check service (S fuel) object relation re ctx w
  = let '(o, w2) :=
      union ctx
        [check service fuel
           (tuple.UserSet_Object (tuple.User_UserSet t))
           (tuple.UserSet_Relation (tuple.User_UserSet t)) re]
        (snd (decrease re w1)) in
    ({| sent := depthGuard re w ++ sent (report o);
        status := status (report o) |}, w2).
Proof.
  intros Hg Hb Ht Hu.
  cbn [check]. rewrite Hg. cbn iota beta.
  rewrite scan_first_edge by assumption.
  destruct (union _ _ _) as [o w2]. reflexivity.
Qed.

(** What the scan does at the first userset edge. When the users the
    store returns for a leaf hold a userset edge that is not the subject,
    after literal users other than the subject only, the decision the
    scan sends is the one the union over the single recursive check of
    the edge's object and relation returns, run on the same request after
    its depth went down by one, and nothing depends on the users after
    the edge. With depth left it is the only decision of the task;
    otherwise it follows the [DepthError] the guard sent. *)
Theorem leaf_follows_first_userset_edge :
  forall fuel object relation re ctx w before t after w1,
    getUsers service object relation w = ((before ++ t :: after, None), w1) ->
    Forall (passed re) before ->
    tuple.Equals t (Subject re) = false ->
    tuple.IsUser t = false ->
    (check service (S fuel) object relation re ctx w
     = let '(o, w2) :=
         union ctx
           [check service fuel
              (tuple.UserSet_Object (tuple.User_UserSet t))
              (tuple.UserSet_Relation (tuple.User_UserSet t)) re]
           (snd (decrease re w1)) in
       ({| sent := depthGuard re w ++ sent (report o);
           status := status (report o) |}, w2))
    /\ (isFinish re w = false ->
        sent (fst (check service (S fuel) object relation re ctx w))
        = sent (report
                  (fst (union ctx
                          [check service fuel
                             (tuple.UserSet_Object (tuple.User_UserSet t))
                             (tuple.UserSet_Relation (tuple.User_UserSet t))
                             re]
                          (snd (decrease re w1))))))
    /\ ((depth re < List.length (heap w))%nat ->
        (- 2 ^ 63 < load (depth re) w < 2 ^ 63)%Z ->
        load (depth re) (snd (decrease re w1)) = (load (depth re) w - 1)%Z).
Proof.
  intros fuel object relation re ctx w before t after w1 Hg Hb Ht Hu.
  split; [|split].
  - apply check_at_first_edge with (before := before) (after := after);
      assumption.
  - intros Hd.
    rewrite (check_at_first_edge fuel object relation re ctx w
               before t after w1 Hg Hb Ht Hu).
    destruct (union _ _ _) as [o w2]. unfold depthGuard. rewrite Hd.
    reflexivity.
  - intros Hp Hr.
    pose proof (getUsers_heap object relation w) as Hh.
    rewrite Hg in Hh. cbn in Hh.
    assert (Hl : load (depth re) w1 = load (depth re) w)
      by (unfold load; rewrite Hh; reflexivity).
    rewrite load_decrease by (rewrite Hh; exact Hp).
    rewrite Hl. apply wrap_small. lia.
Qed.

Lemma findAction_none (a : string) (actions : list schema.Action) :
  (forall act, In act actions -> schema.Name act <> a) ->
  findAction a actions = None.
Proof.
  induction actions as [|act actions IH]; intros H; cbn; [reflexivity|].
  destruct (String.eqb_spec (schema.Name act) a) as [Heq|_].
  - exfalso. apply (H act); [left; reflexivity|exact Heq].
  - apply IH. intros act' Hin. apply H. right. exact Hin.
Qed.

(** C7. For an object string that parses and an action name that no
    action of the object's namespace bears, [Check] returns
    (false, ActionCannotFoundError) and leaves the world as it was: no
    depth cell is made, no goroutine is scheduled and the store is not
    queried. *)
Theorem Check_unknown_action :
  forall fuel ctx s a o d w object,
    tuple.ConvertObject o = (object, None) ->
    (forall act,
        In act (schema.Actions
                  (schema.Entities (schema service) (tuple.Namespace object))) ->
        schema.Name act <> a) ->
    Check service fuel ctx s a o d w
    = (Returns (false, Some ActionCannotFoundError), w).
Proof.
  intros fuel ctx s a o d w object Ho Ha.
  unfold Check. rewrite Ho. rewrite (findAction_none _ _ Ha). reflexivity.
Qed.

Lemma unionLoop_one (d : Decision) (picks : list Arrival) :
  sound d -> unionLoop 1 (Recv d :: picks) = Some d.
Proof.
  destruct d as [can [e|]]; unfold sound; cbn.
  - destruct can; intros H; [discriminate (H eq_refl)|reflexivity].
  - destruct can; reflexivity.
Qed.

Lemma set_sound (kind : Request -> schema.Child -> option CheckFunction)
  (request : Request) (children : list schema.Child) (combiner : Combiner)
  (ctx : Context) (w : World) :
  (forall ctx' functions w' d,
      fst (combiner ctx' functions w') = Returns d -> sound d) ->
  Forall sound (sent (fst (set kind request children combiner ctx w))).
Proof.
  intros Hc. unfold set. destruct (functionsOf _ _) as [functions|].
  - destruct (combiner ctx functions w) as [o w'] eqn:E. cbn.
    apply report_sound. intros d ->. eapply Hc. rewrite E. reflexivity.
  - cbn. constructor; [by_cases|constructor].
Qed.

(** Every function the kind switch builds writes sound decisions only. *)
Lemma kindSwitch_sound (fuel : nat) (request : Request)
  (child : schema.Child) (fn : CheckFunction) (ctx : Context) (w : World) :
  kindSwitch service fuel request child = Some fn ->
  Forall sound (sent (fst (fn ctx w))).
Proof.
  destruct child as [type children|type value|kind]; cbn; [| |discriminate].
  - intros [= <-]. destruct type; cbn.
    + apply set_sound. intros ctx' functions w' d. apply union_sound.
    + apply set_sound. intros ctx' functions w' d. apply intersection_sound.
    + constructor; [by_cases|constructor].
  - intros [= <-]. destruct type; cbn; try apply check_sound.
    constructor; [by_cases|constructor].
Qed.

(** C6, as the code has it. Under a scope that is not canceled, the union
    over one function returns the first decision the function writes,
    when that decision is sound, as those of every function the engine
    builds are, and waits for ever when the function writes none; [c]
    returns the first decision of the function built for the root. Under
    a canceled scope the union returns (false, CanceledError). *)
Theorem union_of_one :
  (forall (fn : CheckFunction) ctx w d rest st w',
      canceled ctx = false ->
      fn ctx (popSchedule w) = ({| sent := d :: rest; status := st |}, w') ->
      sound d ->
      union ctx [fn] w = (Returns d, w'))
  /\ (forall (fn : CheckFunction) ctx w st w',
      canceled ctx = false ->
      fn ctx (popSchedule w) = ({| sent := []; status := st |}, w') ->
      st <> OutOfFuel ->
      union ctx [fn] w = (Blocks, w'))
  /\ (forall (fn : CheckFunction) ctx w,
      canceled ctx = true ->
      fst (union ctx [fn] w)
      = Returns (sendDecision false (Some CanceledError)))
  /\ (forall fuel ctx request child w fn d rest st w',
      canceled ctx = false ->
      kindSwitch service fuel request child = Some fn ->
      fn ctx (popSchedule w) = ({| sent := d :: rest; status := st |}, w') ->
      c service fuel ctx request child w = (Returns (Can d, Err d), w')).
Proof.
  assert (first :
    forall (fn : CheckFunction) ctx w d rest st w',
      canceled ctx = false ->
      fn ctx (popSchedule w) = ({| sent := d :: rest; status := st |}, w') ->
      sound d ->
      union ctx [fn] w = (Returns d, w')).
  { intros fn ctx w d rest st w' Hc Hfn Hd.
    rewrite union_one, Hfn. unfold arrivals. rewrite Hc.
    cbn [app flat_map sent map]. rewrite unionLoop_one by exact Hd.
    reflexivity. }
  split; [exact first|split; [|split]].
  - intros fn ctx w st w' Hc Hfn Hst.
    rewrite union_one, Hfn. unfold arrivals. rewrite Hc. cbn.
    destruct st; [reflexivity|reflexivity|congruence].
  - intros fn ctx w Hc. rewrite union_one.
    destruct (fn ctx (popSchedule w)) as [r w']. unfold arrivals.
    rewrite Hc. reflexivity.
  - intros fuel ctx request child w fn d rest st w' Hc Hk Hfn.
    unfold c. rewrite Hk.
    pose proof (kindSwitch_sound fuel request child fn ctx (popSchedule w) Hk)
      as Hs.
    rewrite Hfn in Hs. cbn in Hs.
    rewrite (first fn ctx w d rest st w' Hc Hfn (Forall_inv Hs)).
    reflexivity.
Qed.

(** The depth cell only goes down while a leaf task and the checks it
    starts run, by at most one per generation, as long as it stays above
    the least [int]. *)
Lemma check_lowers (fuel : nat) :
  forall object relation re ctx w,
    (depth re < List.length (heap w))%nat ->
    (- 2 ^ 63 + Z.of_nat fuel <= load (depth re) w < 2 ^ 63)%Z ->
    List.length (heap (snd (check service fuel object relation re ctx w)))
    = List.length (heap w)
    /\ (load (depth re) w - Z.of_nat fuel
        <= load (depth re) (snd (check service fuel object relation re ctx w))
        <= load (depth re) w)%Z.
Proof.
  induction fuel as [|fuel IH]; intros object relation re ctx w Hp Hr.
  - cbn. lia.
  - cbn [check].
    pose proof (getUsers_heap object relation w) as Hh.
    destruct (getUsers service object relation w) as [[users err] w1].
    cbn in Hh.
    assert (Hl : load (depth re) w1 = load (depth re) w)
      by (unfold load; rewrite Hh; reflexivity).
    destruct err as [e|]; cbn [snd]; [rewrite Hh; lia|].
    assert (Hscan :
      List.length (heap (snd (scan (check service fuel) re None ctx users w1)))
      = List.length (heap w1)
      /\ (load (depth re) w1 - Z.of_nat (S fuel)
          <= load (depth re)
               (snd (scan (check service fuel) re None ctx users w1))
          <= load (depth re) w1)%Z).
    { induction users as [|t users IHu]; cbn -[union Z.of_nat]; [lia|].
      destruct (tuple.Equals t (Subject re)); cbn -[union Z.of_nat]; [lia|].
      destruct (negb (tuple.IsUser t)); [|exact IHu].
      rewrite union_one.
      set (w2 := store (depth re) (wrap (load (depth re) w1 - 1)) w1).
      assert (Hp2 : (depth re < List.length (heap w2))%nat)
        by (unfold w2, store; cbn; rewrite update_length, Hh; exact Hp).
      assert (Hl2 : load (depth re) w2 = (load (depth re) w1 - 1)%Z).
      { unfold w2, store, load at 1. cbn.
        rewrite nth_update by (rewrite Hh; exact Hp).
        apply wrap_small. lia. }
      specialize (IH (tuple.UserSet_Object (tuple.User_UserSet t))
                     (tuple.UserSet_Relation (tuple.User_UserSet t))
                     re ctx (popSchedule w2)).
      unfold load in IH. cbn [popSchedule heap] in IH.
      fold (load (depth re) w2) in IH.
      destruct (check service fuel _ _ re ctx (popSchedule w2)) as [r w3].
      cbn [snd] in *.
      assert (List.length (heap w2) = List.length (heap w1))
        by (unfold w2, store; cbn; apply update_length).
      destruct IH as [IH1 IH2]; [exact Hp2|lia|].
      fold (load (depth re) w3) in IH2. lia. }
    destruct (scan _ _ _ _ _ _) as [r w2]. cbn [snd] in *.
    rewrite Hh, Hl in Hscan. exact Hscan.
Qed.

(** C8, as the code has it. The depth budget is one cell that every
    holder of the request reaches through the same pointer: [decrease]
    gives the same request back and writes the cell in place, so a request
    with that pointer reads the lowered depth; and once a leaf task that
    followed a userset edge is done, the depth every such request reads
    is at least one below what it was. *)
Theorem depth_cell_is_shared :
  (forall re w, fst (decrease re w) = re)
  /\ (forall re sibling w,
      depth sibling = depth re ->
      (depth re < List.length (heap w))%nat ->
      load (depth sibling) (snd (decrease re w))
      = wrap (load (depth re) w - 1)
      /\ isFinish sibling (snd (decrease re w))
         = (wrap (load (depth re) w - 1) <=? 0)%Z)
  /\ (forall fuel object relation re sibling ctx w before t after w1,
      getUsers service object relation w = ((before ++ t :: after, None), w1) ->
      Forall (passed re) before ->
      tuple.Equals t (Subject re) = false ->
      tuple.IsUser t = false ->
      depth sibling = depth re ->
      (depth re < List.length (heap w))%nat ->
      (- 2 ^ 63 + Z.of_nat (S fuel) <= load (depth re) w < 2 ^ 63)%Z ->
      (load (depth sibling)
            (snd (check service (S fuel) object relation re ctx w))
       <= load (depth re) w - 1)%Z).
Proof.
  split; [reflexivity|split].
  - intros re sibling w Hs Hp. unfold isFinish. rewrite Hs.
    rewrite load_decrease by exact Hp. split; reflexivity.
  - intros fuel object relation re sibling ctx w before t after w1
           Hg Hb Ht Hu Hs Hp Hr.
    rewrite Hs.
    rewrite (check_at_first_edge fuel object relation re ctx w
               before t after w1 Hg Hb Ht Hu).
    rewrite union_one.
    pose proof (getUsers_heap object relation w) as Hh.
    rewrite Hg in Hh. cbn [snd] in Hh.
    set (w2 := snd (decrease re w1)).
    assert (Hp2 : (depth re < List.length (heap (popSchedule w2)))%nat)
      by (unfold w2, decrease, store; cbn; rewrite update_length, Hh; exact Hp).
    assert (Hl2 : load (depth re) (popSchedule w2)
                  = (load (depth re) w - 1)%Z).
    { change (load (depth re) (popSchedule w2)) with (load (depth re) w2).
      unfold w2. rewrite load_decrease by (rewrite Hh; exact Hp).
      unfold load. rewrite Hh. apply wrap_small. unfold load in Hr. lia. }
    pose proof (check_lowers fuel
                  (tuple.UserSet_Object (tuple.User_UserSet t))
                  (tuple.UserSet_Relation (tuple.User_UserSet t))
                  re ctx (popSchedule w2) Hp2) as Hlow.
    destruct (check service fuel _ _ re ctx (popSchedule w2)) as [r w3].
    cbn [snd] in *.
    destruct Hlow as [_ Hlow]; lia.
Qed.

(** The two ways a leaf task misses its one decision, on any store. *)
Lemma check_on_store_error (fuel : nat) (object : tuple.Object)
  (relation : tuple.Relation) (re : Request) (ctx : Context) (w : World)
  (en : list entities.RelationTuple) (e : error) :
  repositories.QueryTuples (repository service) (tuple.Namespace object)
    (tuple.ID object) (fst (tuple.Split relation)) = (en, Some e) ->
  check service (S fuel) object relation re ctx w
  = ({| sent := depthGuard re w; status := Returned |},
     logQuery (tuple.Namespace object, tuple.ID object,
               fst (tuple.Split relation)) w).
Proof.
  intros H. cbn [check]. unfold getUsers. rewrite H. reflexivity.
Qed.

Lemma check_exhausted_on_no_tuple (fuel : nat) (object : tuple.Object)
  (relation : tuple.Relation) (re : Request) (ctx : Context) (w : World) :
  isFinish re w = true ->
  repositories.QueryTuples (repository service) (tuple.Namespace object)
    (tuple.ID object) (fst (tuple.Split relation)) = ([], None) ->
  check service (S fuel) object relation re ctx w
  = ({| sent := [sendDecision false (Some DepthError);
                 sendDecision false None];
        status := Returned |},
     logQuery (tuple.Namespace object, tuple.ID object,
               fst (tuple.Split relation)) w).
Proof.
  intros Hd H. cbn [check]. unfold getUsers, depthGuard.
  rewrite H, Hd. reflexivity.
Qed.

End Properties.

(** ** The engine at work on the concrete store *)

(** C1. A leaf task whose request has no depth left, on a store that
    answers: the task writes [DepthError], then queries the store all the
    same and writes a second decision. *)
Theorem exhausted_leaf_still_queries :
  forall fuel,
    check Demo.service (S fuel) (Demo.doc "1") "owner"
      (Demo.request (Demo.doc "1") "bob") Demo.background (Demo.worldAt 0)
    = ({| sent := [sendDecision false (Some DepthError);
                   sendDecision false None];
          status := Returned |},
       {| heap := [0%Z; 0%Z];
          queries := [("doc", "1", "owner")];
          schedule := [] |}).
Proof. intros fuel. reflexivity. Qed.

(** C2. A leaf task does not always write one decision: with no depth
    left it writes two, and when the store fails it writes none and
    returns. *)
Theorem leaf_reports_twice_or_never :
  (forall fuel,
      fst (check Demo.service (S fuel) (Demo.doc "1") "owner"
             (Demo.request (Demo.doc "1") "alice") Demo.background
             (Demo.worldAt 0))
      = {| sent := [sendDecision false (Some DepthError);
                    sendDecision true None];
           status := Returned |})
  /\ (forall fuel,
      fst (check Demo.service (S fuel) (Demo.doc "2") "owner"
             (Demo.request (Demo.doc "2") "alice") Demo.background
             (Demo.worldAt 3))
      = {| sent := []; status := Returned |}).
Proof. split; intros fuel; reflexivity. Qed.

(** C3. When the store fails, the leaf task writes no decision: the
    error reaches nobody, the union over the task waits for ever, and so
    does [Check], unless the scope is canceled. *)
Theorem store_error_is_dropped :
  Demo.facts "doc" "2" "owner" = ([], Some (ExternalError "store down"))
  /\ (forall fuel,
      fst (check Demo.service (S fuel) (Demo.doc "2") "owner"
             (Demo.request (Demo.doc "2") "alice") Demo.background
             (Demo.worldAt 3))
      = {| sent := []; status := Returned |})
  /\ (forall fuel,
      fst (union Demo.background
             [check Demo.service (S fuel) (Demo.doc "2") "owner"
                (Demo.request (Demo.doc "2") "alice")]
             (Demo.worldAt 3))
      = Blocks)
  /\ (forall fuel,
      fst (Check Demo.service (S fuel) Demo.background
             "alice" "view_via_viewer" "doc:2" 3 Demo.world0)
      = Blocks)
  /\ (forall fuel,
      fst (Check Demo.service (S fuel) Demo.expired
             "alice" "view_via_viewer" "doc:2" 3 Demo.world0)
      = Returns (false, Some CanceledError)).
Proof. repeat split; intros fuel; reflexivity. Qed.

(** C6 as stated fails under a canceled scope: the task [fail(DepthError)]
    writes (false, DepthError) and the union over it returns
    (false, CanceledError); and [Check] on a canceled scope returns
    (false, CanceledError) where the root task writes (true, nil). *)
Lemma union_of_one_differs_when_canceled :
  ~ (forall (fn : CheckFunction) ctx w d,
        sent (fst (fn ctx (popSchedule w))) = [d] ->
        fst (union ctx [fn] w) = Returns d)
  /\ (exists fn,
        kindSwitch Demo.service 4
          {| Object := Demo.doc "1";
             Subject := tuple.ConvertUser "alice";
             depth := 1 |}
          (schema.Leaf schema.ComputedUserSetType "owner") = Some fn
        /\ sent (fst (fn Demo.expired (popSchedule (Demo.worldAt 5))))
           = [sendDecision true None]
        /\ fst (c Demo.service 4 Demo.expired
                  {| Object := Demo.doc "1";
                     Subject := tuple.ConvertUser "alice";
                     depth := 1 |}
                  (schema.Leaf schema.ComputedUserSetType "owner")
                  (Demo.worldAt 5))
           = Returns (false, Some CanceledError)).
Proof.
  split.
  - intros H.
    specialize (H (fail (Some DepthError)) Demo.expired Demo.world0
                  (sendDecision false (Some DepthError)) eq_refl).
    discriminate H.
  - eexists. split; [reflexivity|]. split; reflexivity.
Qed.

Lemma union_of_one_witness :
  union Demo.background [fail (Some DepthError)] Demo.world0
  = (Returns (sendDecision false (Some DepthError)), Demo.world0)
  /\ fst (union Demo.expired [fail (Some DepthError)] Demo.world0)
     = Returns (sendDecision false (Some CanceledError))
  /\ fst (c Demo.service 4 Demo.background
            (Demo.request (Demo.doc "1") "alice")
            (schema.Leaf schema.ComputedUserSetType "owner")
            (Demo.worldAt 5))
     = Returns (true, None).
Proof.
  destruct (union_of_one Demo.service) as (Hfirst & _ & Hcancel & Hroot).
  split; [|split].
  - apply (Hfirst (fail (Some DepthError)) Demo.background Demo.world0
             (sendDecision false (Some DepthError)) [] Returned Demo.world0).
    + reflexivity.
    + reflexivity.
    + unfold sound. cbn. discriminate.
  - apply (Hcancel (fail (Some DepthError)) Demo.expired Demo.world0).
    reflexivity.
  - rewrite (Hroot 4 Demo.background (Demo.request (Demo.doc "1") "alice")
               (schema.Leaf schema.ComputedUserSetType "owner")
               (Demo.worldAt 5)
               (check Demo.service 4 (Demo.doc "1") "owner"
                  (Demo.request (Demo.doc "1") "alice"))
               (sendDecision true None) [] Returned
               (logQuery ("doc", "1", "owner") (Demo.worldAt 5))).
    + reflexivity.
    + reflexivity.
    + reflexivity.
    + reflexivity.
Defined.

Lemma Check_unknown_action_witness :
  Check Demo.service 4 Demo.background "alice" "delete" "doc:1" 5 Demo.world0
  = (Returns (false, Some ActionCannotFoundError), Demo.world0).
Proof.
  apply (Check_unknown_action Demo.service 4 Demo.background
           "alice" "delete" "doc:1" 5 Demo.world0 (Demo.doc "1")).
  - reflexivity.
  - cbn. intros act [<-|[<-|[<-|[<-|[]]]]]; cbn; discriminate.
Defined.

(** C8 as stated fails: the request of bob on doc:3 starts with depth 1;
    once the leaf for "viewer" has followed its userset edge the same
    request reads depth 0, and the sibling leaf for "owner", which
    writes (true, nil) when it runs first, writes [DepthError] first when
    it runs afterwards; the union over both, started in the order of the
    list, returns (false, DepthError). *)
Lemma depth_decrement_reaches_sibling :
  let re := Demo.request (Demo.doc "3") "bob" in
  let w := Demo.worldAt 1 in
  let w' := snd (check Demo.service 2 (Demo.doc "3") "viewer" re
                   Demo.background w) in
  load (depth re) w = 1%Z
  /\ load (depth re) w' = 0%Z
  /\ isFinish re w = false
  /\ isFinish re w' = true
  /\ sent (fst (check Demo.service 2 (Demo.doc "3") "owner" re
                  Demo.background w))
     = [sendDecision true None]
  /\ sent (fst (check Demo.service 2 (Demo.doc "3") "owner" re
                  Demo.background w'))
     = [sendDecision false (Some DepthError); sendDecision true None]
  /\ fst (Check Demo.service 3 Demo.background "bob" "read" "doc:3" 1
            Demo.world0)
     = Returns (false, Some DepthError).
Proof. cbv zeta. repeat split; vm_compute; reflexivity. Qed.

Lemma depth_cell_is_shared_witness :
  load 1 (snd (decrease (Demo.request (Demo.doc "3") "bob") (Demo.worldAt 1)))
  = wrap (1 - 1)
  /\ (load 1%nat (snd (check Demo.service 2 (Demo.doc "3") "viewer"
                     (Demo.request (Demo.doc "3") "bob") Demo.background
                     (Demo.worldAt 1)))
      <= 1 - 1)%Z.
Proof.
  destruct (depth_cell_is_shared Demo.service) as (_ & Hwrite & Hbranch).
  split.
  - apply (Hwrite (Demo.request (Demo.doc "3") "bob")
             (Demo.request (Demo.doc "1") "alice") (Demo.worldAt 1)).
    + reflexivity.
    + cbn. lia.
  - apply (Hbranch 1%nat (Demo.doc "3") "viewer"
             (Demo.request (Demo.doc "3") "bob")
             (Demo.request (Demo.doc "1") "alice")
             Demo.background (Demo.worldAt 1)
             [] (Demo.userset "group" "g2" "member") []
             (logQuery ("doc", "3", "viewer") (Demo.worldAt 1))).
    + reflexivity.
    + constructor.
    + reflexivity.
    + reflexivity.
    + reflexivity.
    + cbn. lia.
    + cbn. lia.
Defined.

Lemma leaf_follows_first_userset_edge_witness :
  check Demo.service 2 (Demo.doc "3") "viewer"
    (Demo.request (Demo.doc "3") "bob") Demo.background (Demo.worldAt 1)
  = ({| sent := [sendDecision false (Some DepthError)]; status := Returned |},
     {| heap := [0%Z; 0%Z];
        queries := [("doc", "3", "viewer"); ("group", "g2", "member")];
        schedule := [] |}).
Proof.
  destruct (leaf_follows_first_userset_edge Demo.service 1 (Demo.doc "3")
              "viewer" (Demo.request (Demo.doc "3") "bob") Demo.background
              (Demo.worldAt 1) [] (Demo.userset "group" "g2" "member") []
              (logQuery ("doc", "3", "viewer") (Demo.worldAt 1)))
    as [Hrun _].
  - reflexivity.
  - constructor.
  - reflexivity.
  - reflexivity.
  - rewrite Hrun. reflexivity.
Defined.

Lemma allowed_decisions_carry_no_error_witness :
  Forall sound
    (sent (fst (check Demo.service 2 (Demo.doc "3") "viewer"
                  (Demo.request (Demo.doc "3") "bob") Demo.background
                  (Demo.worldAt 1)))).
Proof.
  destruct (allowed_decisions_carry_no_error Demo.service)
    as (_ & _ & _ & _ & Hleaf & _).
  apply Hleaf.
Defined.

(** ** Further properties of the service *)

Section Coverage.

Context {pkg : tuple.Package}.
Variable service : PermissionService.

Lemma getUsers_world (object : tuple.Object) (relation : tuple.Relation)
  (w : World) :
  snd (getUsers service object relation w)
  = logQuery (tuple.Namespace object, tuple.ID object,
              fst (tuple.Split relation)) w.
Proof.
  unfold getUsers.
  destruct (repositories.QueryTuples _ _ _ _) as [en [e|]]; reflexivity.
Qed.

Lemma scan_all_passed
  (rec : tuple.Object -> tuple.Relation -> Request -> CheckFunction)
  (re : Request) (err : option error) (ctx : Context)
  (users : list tuple.User) (w : World) :
  Forall (passed re) users ->
  scan rec re err ctx users w
  = ({| sent := [sendDecision false err]; status := Returned |}, w).
Proof.
  induction 1 as [|u users [Hne Hlit] _ IH]; cbn -[union]; [reflexivity|].
  rewrite Hne, Hlit. exact IH.
Qed.

Lemma scan_match
  (rec : tuple.Object -> tuple.Relation -> Request -> CheckFunction)
  (re : Request) (err : option error) (ctx : Context)
  (before : list tuple.User) (t : tuple.User) (after : list tuple.User)
  (w : World) :
  Forall (passed re) before ->
  tuple.Equals t (Subject re) = true ->
  scan rec re err ctx (before ++ t :: after) w
  = ({| sent := [sendDecision true err]; status := Returned |}, w).
Proof.
  intros Hb Ht. induction Hb as [|u before [Hne Hlit] _ IH]; cbn -[union].
  - rewrite Ht. reflexivity.
  - rewrite Hne, Hlit. exact IH.
Qed.

(** X1. A leaf whose users hold no userset edge before the first user
    equal to the subject: the task writes (true, nil) when there is such
    a user and (false, nil) when there is none, after the guard's
    [DepthError] if the depth is used up; it starts no recursive check,
    leaves every depth cell as it is and queries the store once. *)
Theorem leaf_without_edge :
  forall fuel object relation re ctx w users w1,
    getUsers service object relation w = ((users, None), w1) ->
    (forall before t after,
        users = before ++ t :: after ->
        Forall (passed re) before ->
        tuple.Equals t (Subject re) = true ->
        check service (S fuel) object relation re ctx w
        = ({| sent := depthGuard re w ++ [sendDecision true None];
              status := Returned |},
           logQuery (tuple.Namespace object, tuple.ID object,
                     fst (tuple.Split relation)) w))
    /\ (Forall (passed re) users ->
        check service (S fuel) object relation re ctx w
        = ({| sent := depthGuard re w ++ [sendDecision false None];
              status := Returned |},
           logQuery (tuple.Namespace object, tuple.ID object,
                     fst (tuple.Split relation)) w)).
Proof.
  intros fuel object relation re ctx w users w1 Hg.
  pose proof (getUsers_world object relation w) as Hw.
  rewrite Hg in Hw. cbn [snd] in Hw. subst w1.
  split.
  - intros before t after -> Hb Ht.
    cbn [check]. rewrite Hg. cbn iota beta.
    rewrite scan_match by assumption. reflexivity.
  - intros Hall.
    cbn [check]. rewrite Hg. cbn iota beta.
    rewrite scan_all_passed by assumption. reflexivity.
Qed.

Lemma scan_sent_bound
  (rec : tuple.Object -> tuple.Relation -> Request -> CheckFunction)
  (re : Request) (err : option error) (ctx : Context)
  (users : list tuple.User) (w : World) :
  (List.length (sent (fst (scan rec re err ctx users w))) <= 1)%nat.
Proof.
  induction users as [|t users IH]; cbn -[union]; [lia|].
  destruct (tuple.Equals t (Subject re)); cbn -[union]; [lia|].
  destruct (negb (tuple.IsUser t)); [|exact IH].
  destruct (union _ _ _) as [o w2]. destruct o; cbn; lia.
Qed.

(** X2. A leaf task writes at most one decision when it starts with depth
    left and at most two otherwise; when it writes two, the first is
    (false, DepthError). *)
Theorem leaf_writes_at_most_two :
  forall fuel object relation re ctx w,
    let r := fst (check service fuel object relation re ctx w) in
    (List.length (sent r) <= 2)%nat
    /\ (isFinish re w = false -> (List.length (sent r) <= 1)%nat)
    /\ (List.length (sent r) = 2%nat ->
        hd_error (sent r) = Some (sendDecision false (Some DepthError))).
Proof.
  intros fuel object relation re ctx w.
  destruct fuel as [|fuel]; cbn -[union scan]; [repeat split; (lia || discriminate)|].
  destruct (getUsers service object relation w) as [[users err] w1].
  unfold depthGuard.
  destruct err as [e|]; cbn -[union scan].
  - destruct (isFinish re w); cbn; repeat split; intros; (lia || discriminate).
  - pose proof (scan_sent_bound (check service fuel) re None ctx users w1) as Hs.
    destruct (scan _ _ _ _ _ _) as [r w2]. cbn [fst sent] in *.
    destruct (isFinish re w); cbn [app List.length hd_error];
      repeat split; intros; try lia; try discriminate; reflexivity.
Qed.

Lemma union_one_fst (ctx : Context) (fn : CheckFunction) (w : World) :
  fst (union ctx [fn] w) = unionOfRun ctx (fst (fn ctx (popSchedule w))).
Proof.
  rewrite union_one. destruct (fn ctx (popSchedule w)) as [r w'].
  reflexivity.
Qed.

Lemma unionOfRun_head (ctx : Context) (r1 r2 : Run) (d : Decision)
  (rest1 rest2 : list Decision) :
  sent r1 = d :: rest1 -> sent r2 = d :: rest2 ->
  unionOfRun ctx r1 = unionOfRun ctx r2 /\ unionOfRun ctx r1 <> Unknown.
Proof.
  destruct r1 as [s1 st1], r2 as [s2 st2]. cbn [sent].
  intros -> ->. unfold unionOfRun, arrivals.
  destruct (canceled ctx); cbn.
  - split; [reflexivity|discriminate].
  - destruct (isNil (Err d) && Can d); cbn; [split; [reflexivity|discriminate]|].
    destruct (negb (isNil (Err d))); cbn; split; (reflexivity || discriminate).
Qed.

Lemma unionOfRun_known (ctx : Context) (r : Run) :
  status r <> OutOfFuel -> unionOfRun ctx r <> Unknown.
Proof.
  intros H. unfold unionOfRun, await.
  destruct (unionLoop 1 (arrivals ctx [r])); [discriminate|].
  cbn. unfold outOfFuel. destruct (status r); [discriminate|discriminate|].
  congruence.
Qed.

Lemma fst_report (u : Outcome Decision * World) :
  fst (let '(o, w) := u in (report o, w)) = report (fst u).
Proof. destruct u. reflexivity. Qed.

Lemma check_exhausted_head (fuel : nat) (object : tuple.Object)
  (relation : tuple.Relation) (re : Request) (ctx : Context) (w : World) :
  isFinish re w = true ->
  exists rest,
    sent (fst (check service (S fuel) object relation re ctx w))
    = sendDecision false (Some DepthError) :: rest.
Proof.
  intros Hd. cbn [check]. unfold depthGuard. rewrite Hd.
  destruct (getUsers service object relation w) as [[users err] w1].
  destruct err as [e|]; cbn [fst sent].
  - eexists. reflexivity.
  - destruct (scan _ _ _ _ _ _) as [r w2]. cbn. eexists. reflexivity.
Qed.

(** One generation: when the checks started at depth [k] give the reader
    of their union the same, known outcome whether followed for [f1] or
    [f2] generations, a leaf at depth [k + 1] runs the same either way. *)
Lemma check_generation (k : Z) (f1 f2 : nat) (re : Request) (ctx : Context) :
  (- 2 ^ 63 <= k < 2 ^ 63)%Z ->
  (forall object relation w,
      (depth re < List.length (heap w))%nat ->
      load (depth re) w = k ->
      unionOfRun ctx (fst (check service f1 object relation re ctx w))
      = unionOfRun ctx (fst (check service f2 object relation re ctx w))
      /\ unionOfRun ctx (fst (check service f1 object relation re ctx w))
         <> Unknown) ->
  forall object relation w,
    (depth re < List.length (heap w))%nat ->
    load (depth re) w = (k + 1)%Z ->
    fst (check service (S f1) object relation re ctx w)
    = fst (check service (S f2) object relation re ctx w)
    /\ status (fst (check service (S f1) object relation re ctx w))
       <> OutOfFuel.
Proof.
  intros Hk Hchild object relation w Hp Hl. cbn [check].
  pose proof (getUsers_heap service object relation w) as Hh.
  destruct (getUsers service object relation w) as [[users err] w1].
  cbn [snd] in Hh.
  destruct err as [e|]; [split; [reflexivity|discriminate]|].
  assert (Hscan :
    fst (scan (check service f1) re None ctx users w1)
    = fst (scan (check service f2) re None ctx users w1)
    /\ status (fst (scan (check service f1) re None ctx users w1))
       <> OutOfFuel).
  { induction users as [|t users IH]; cbn -[union];
      [split; [reflexivity|discriminate]|].
    destruct (tuple.Equals t (Subject re)); cbn -[union];
      [split; [reflexivity|discriminate]|].
    destruct (negb (tuple.IsUser t)); [|exact IH].
    set (w2 := store (depth re) (wrap (load (depth re) w1 - 1)) w1).
    assert (Hp2 : (depth re < List.length (heap (popSchedule w2)))%nat)
      by (unfold w2, store; cbn; rewrite update_length, Hh; exact Hp).
    assert (Hl2 : load (depth re) (popSchedule w2) = k).
    { unfold w2, store, load. cbn.
      rewrite nth_update by (rewrite Hh; exact Hp).
      fold (load (depth re) w1).
      replace (load (depth re) w1) with (k + 1)%Z
        by (rewrite <- Hl; unfold load; rewrite Hh; reflexivity).
      rewrite wrap_small by lia. lia. }
    set (obj := tuple.UserSet_Object (tuple.User_UserSet t)).
    set (rel := tuple.UserSet_Relation (tuple.User_UserSet t)).
    destruct (Hchild obj rel (popSchedule w2) Hp2 Hl2) as [Heq Hknown].
    pose proof (union_one_fst ctx (check service f1 obj rel re) w2) as H1.
    pose proof (union_one_fst ctx (check service f2 obj rel re) w2) as H2.
    rewrite !fst_report, H1, H2, <- Heq.
    split; [reflexivity|].
    destruct (unionOfRun ctx _); cbn; congruence. }
  destruct (scan (check service f1) re None ctx users w1) as [r1 w2].
  destruct (scan (check service f2) re None ctx users w1) as [r2 w3].
  cbn [fst sent status] in *. destruct Hscan as [-> Hst].
  split; [reflexivity|exact Hst].
Qed.

Lemma check_decided (k : nat) :
  forall fuel1 fuel2 object relation re ctx w,
    (depth re < List.length (heap w))%nat ->
    load (depth re) w = Z.of_nat (S k) ->
    (Z.of_nat (S k) < 2 ^ 63)%Z ->
    (S k < fuel1)%nat -> (S k < fuel2)%nat ->
    fst (check service fuel1 object relation re ctx w)
    = fst (check service fuel2 object relation re ctx w)
    /\ status (fst (check service fuel1 object relation re ctx w))
       <> OutOfFuel.
Proof.
  induction k as [|k IH];
    intros fuel1 fuel2 object relation re ctx w Hp Hl Hr H1 H2;
    destruct fuel1 as [|f1]; try lia; destruct fuel2 as [|f2]; try lia.
  - apply (check_generation 0 f1 f2 re ctx); [lia| |exact Hp|exact Hl].
    intros object' relation' w' Hp' Hl'.
    destruct f1 as [|f1]; [lia|]. destruct f2 as [|f2]; [lia|].
    assert (Hd : isFinish re w' = true)
      by (unfold isFinish; rewrite Hl'; reflexivity).
    destruct (check_exhausted_head f1 object' relation' re ctx w' Hd)
      as [rest1 E1].
    destruct (check_exhausted_head f2 object' relation' re ctx w' Hd)
      as [rest2 E2].
    exact (unionOfRun_head ctx _ _ _ _ _ E1 E2).
  - apply (check_generation (Z.of_nat (S k)) f1 f2 re ctx);
      [lia| |exact Hp|rewrite Hl; lia].
    intros object' relation' w' Hp' Hl'.
    destruct (IH f1 f2 object' relation' re ctx w' Hp' Hl') as [Heq Hst];
      try lia.
    rewrite <- Heq. split; [reflexivity|].
    apply unionOfRun_known, Hst.
Qed.

(** X3. What a leaf task started with depth k, 0 < k, writes to its
    channel and how its own goroutine ends are fixed once k + 1
    generations of recursive checks are followed, on any store, cyclic or
    not: the run of the task is known (never out of fuel) and is the same
    however many more generations are followed. Nothing is said of the
    checks the task started: past the used-up depth they go on querying
    and decrementing, the guard not returning. *)
Theorem leaf_decided_within_depth :
  forall k fuel1 fuel2 object relation re ctx w,
    (depth re < List.length (heap w))%nat ->
    load (depth re) w = Z.of_nat k ->
    (0 < k)%nat ->
    (Z.of_nat k < 2 ^ 63)%Z ->
    (k < fuel1)%nat -> (k < fuel2)%nat ->
    fst (check service fuel1 object relation re ctx w)
    = fst (check service fuel2 object relation re ctx w)
    /\ status (fst (check service fuel1 object relation re ctx w))
       <> OutOfFuel.
Proof.
  intros k fuel1 fuel2 object relation re ctx w Hp Hl Hk Hr H1 H2.
  destruct k as [|k]; [lia|].
  apply (check_decided k); assumption.
Qed.

Lemma findAction_first (a : string) (before : list schema.Action)
  (act : schema.Action) (after : list schema.Action) :
  (forall b, In b before -> schema.Name b <> a) ->
  schema.Name act = a ->
  findAction a (before ++ act :: after) = Some (schema.Action_Child act).
Proof.
  intros Hb Ha. induction before as [|b before IH]; cbn.
  - rewrite Ha, String.eqb_refl. reflexivity.
  - destruct (String.eqb_spec (schema.Name b) a) as [Heq|_].
    + exfalso. apply (Hb b); [left; reflexivity|exact Heq].
    + apply IH. intros b' Hin. apply Hb. right. exact Hin.
Qed.

Lemma load_alloc (d : Z) (w : World) :
  load (List.length (heap w)) (snd (alloc d w)) = d.
Proof.
  unfold load, alloc. cbn.
  rewrite app_nth2 by lia. rewrite Nat.sub_diag. reflexivity.
Qed.

Lemma Check_found (fuel : nat) (ctx : Context) (s a o : string) (d : Z)
  (w : World) (object : tuple.Object) (before : list schema.Action)
  (act : schema.Action) (after : list schema.Action) :
  tuple.ConvertObject o = (object, None) ->
  schema.Actions (schema.Entities (schema service) (tuple.Namespace object))
  = before ++ act :: after ->
  (forall b, In b before -> schema.Name b <> a) ->
  schema.Name act = a ->
  Check service fuel ctx s a o d w
  = c service fuel ctx
      {| Object := object;
         Subject := tuple.ConvertUser s;
         depth := List.length (heap w) |}
      (schema.Action_Child act) (snd (alloc d w)).
Proof.
  intros Ho Hacts Hb Ha. unfold Check. rewrite Ho, Hacts.
  rewrite (findAction_first a before act after Hb Ha). reflexivity.
Qed.

(** X4. [Check] hands a parse error of the object string back as it is,
    with nothing else done; otherwise it evaluates the child of the first
    action of the object's namespace that bears the name, later actions of
    the same name being ignored, under a request whose depth is a cell of
    its own that holds the given depth. *)
Theorem Check_runs_first_action :
  (forall fuel ctx s a o d w object e,
      tuple.ConvertObject o = (object, Some e) ->
      Check service fuel ctx s a o d w = (Returns (false, Some e), w))
  /\ (forall fuel ctx s a o d w object before act after,
      tuple.ConvertObject o = (object, None) ->
      schema.Actions
        (schema.Entities (schema service) (tuple.Namespace object))
      = before ++ act :: after ->
      (forall b, In b before -> schema.Name b <> a) ->
      schema.Name act = a ->
      Check service fuel ctx s a o d w
      = c service fuel ctx
          {| Object := object;
             Subject := tuple.ConvertUser s;
             depth := List.length (heap w) |}
          (schema.Action_Child act) (snd (alloc d w))
      /\ load (List.length (heap w)) (snd (alloc d w)) = d).
Proof.
  split.
  - intros fuel ctx s a o d w object e Ho. unfold Check. rewrite Ho.
    reflexivity.
  - intros fuel ctx s a o d w object before act after Ho Hacts Hb Ha.
    split; [|apply load_alloc].
    apply (Check_found fuel ctx s a o d w object before act after);
      assumption.
Qed.

Lemma c_fst (fuel : nat) (ctx : Context) (request : Request)
  (child : schema.Child) (w : World) :
  fst (c service fuel ctx request child w)
  = match kindSwitch service fuel request child with
    | None => Returns (false, Some UndefinedChildKindError)
    | Some fn =>
        match fst (union ctx [fn] w) with
        | Returns result => Returns (Can result, Err result)
        | Blocks => Blocks
        | Unknown => Unknown
        end
    end.
Proof.
  unfold c. destruct (kindSwitch service fuel request child) as [fn|];
    [|reflexivity].
  destruct (union ctx [fn] w) as [o w']. reflexivity.
Qed.

Lemma unionOfRun_first (ctx : Context) (r : Run) (d : Decision)
  (rest : list Decision) :
  canceled ctx = false -> sent r = d :: rest -> sound d ->
  unionOfRun ctx r = Returns d.
Proof.
  destruct r as [s st]. cbn [sent]. intros Hc -> Hd.
  unfold unionOfRun, arrivals. rewrite Hc. cbn [app flat_map sent map].
  rewrite unionLoop_one by exact Hd. reflexivity.
Qed.

(** X5. With no depth to start with and a scope that is not canceled,
    [Check] on an action whose root is a leaf of either type returns
    (false, DepthError), whatever the store holds or answers. *)
Theorem Check_exhausted_at_root_leaf :
  forall fuel ctx s a o d w object before act after type value,
    tuple.ConvertObject o = (object, None) ->
    schema.Actions (schema.Entities (schema service) (tuple.Namespace object))
    = before ++ act :: after ->
    (forall b, In b before -> schema.Name b <> a) ->
    schema.Name act = a ->
    schema.Action_Child act = schema.Leaf type value ->
    type = schema.TupleToUserSetType \/ type = schema.ComputedUserSetType ->
    canceled ctx = false ->
    (d <= 0)%Z ->
    fst (Check service (S fuel) ctx s a o d w)
    = Returns (false, Some DepthError).
Proof.
  intros fuel ctx s a o d w object before act after type value
         Ho Hacts Hb Ha Hchild Htype Hc Hd.
  rewrite (Check_found (S fuel) ctx s a o d w object before act after)
    by assumption.
  rewrite c_fst, Hchild. cbn [kindSwitch].
  set (re := {| Object := object; Subject := tuple.ConvertUser s;
                depth := List.length (heap w) |}).
  assert (Hleaf : checkLeaf service (S fuel) re type value
                  = check service (S fuel) object value re)
    by (destruct Htype as [-> | ->]; reflexivity).
  rewrite Hleaf, union_one_fst.
  assert (Hfin : isFinish re (popSchedule (snd (alloc d w))) = true).
  { unfold isFinish.
    change (load (depth re) (popSchedule (snd (alloc d w))))
      with (load (List.length (heap w)) (snd (alloc d w))).
    rewrite load_alloc. apply Z.leb_le, Hd. }
  destruct (check_exhausted_head fuel object value re ctx _ Hfin)
    as [rest E].
  rewrite (unionOfRun_first ctx _ _ _ Hc E); [reflexivity|].
  unfold sound. cbn. discriminate.
Qed.

Lemma union_one_fail (ctx : Context) (err : option error) (w : World) :
  canceled ctx = false ->
  union ctx [fail err] w = (Returns (sendDecision false err), popSchedule w).
Proof.
  intros Hc. rewrite union_one. cbn [fail]. unfold arrivals. rewrite Hc.
  cbn [app flat_map sent map].
  rewrite unionLoop_one by (unfold sound; cbn; discriminate). reflexivity.
Qed.

Lemma functionsOf_unknown (fuel : nat) (request : Request) (kind : string)
  (children : list schema.Child) :
  In (schema.OtherKind kind) children ->
  functionsOf (kindSwitch service fuel request) children = None.
Proof.
  induction children as [|child children IH]; cbn [In functionsOf];
    [intros []|].
  intros [-> | Hin]; [reflexivity|].
  destruct (kindSwitch service fuel request child); [|reflexivity].
  rewrite (IH Hin). reflexivity.
Qed.

(** X6. A rule tree the switches do not know, under a scope that is not
    canceled: a root of unknown kind makes [c] return
    (false, UndefinedChildKindError); a root leaf or a root rewrite of
    unknown type makes it return (false, UndefinedChildTypeError), the
    children of the rewrite unread; a root union or intersection with a
    child of unknown kind makes it return
    (false, UndefinedChildKindError) with none of the children run. In
    each case no depth cell is written and the store is not queried. *)
Theorem c_on_undefined_nodes :
  (forall fuel ctx request kind w,
      c service fuel ctx request (schema.OtherKind kind) w
      = (Returns (false, Some UndefinedChildKindError), w))
  /\ (forall fuel ctx request name value w,
      canceled ctx = false ->
      c service fuel ctx request
        (schema.Leaf (schema.OtherLeafType name) value) w
      = (Returns (false, Some UndefinedChildTypeError), popSchedule w))
  /\ (forall fuel ctx request name children w,
      canceled ctx = false ->
      c service fuel ctx request
        (schema.Rewrite (schema.OtherOP name) children) w
      = (Returns (false, Some UndefinedChildTypeError), popSchedule w))
  /\ (forall fuel ctx request type kind children w,
      canceled ctx = false ->
      type = schema.Union \/ type = schema.Intersection ->
      In (schema.OtherKind kind) children ->
      c service fuel ctx request (schema.Rewrite type children) w
      = (Returns (false, Some UndefinedChildKindError), popSchedule w)).
Proof.
  split; [reflexivity|split; [|split]].
  - intros fuel ctx request name value w Hc.
    unfold c. cbn [kindSwitch checkLeaf].
    rewrite union_one_fail by exact Hc. reflexivity.
  - intros fuel ctx request name children w Hc.
    unfold c. cbn [kindSwitch checkRewrite].
    rewrite union_one_fail by exact Hc. reflexivity.
  - intros fuel ctx request type kind children w Hc Htype Hin.
    unfold c. cbn [kindSwitch].
    assert (Hfail : checkRewrite (kindSwitch service fuel) request type children
                    = fail (Some UndefinedChildKindError)).
    { destruct Htype as [-> | ->]; unfold checkRewrite, set;
        rewrite (functionsOf_unknown fuel request kind children Hin);
        reflexivity. }
    rewrite Hfail, union_one_fail by exact Hc. reflexivity.
Qed.

(** X7. A root union or intersection without children, under a scope that
    is not canceled: [c] returns (false, nil), with no depth cell written
    and no store query. *)
Theorem c_on_empty_rewrite :
  forall fuel ctx request type w,
    canceled ctx = false ->
    type = schema.Union \/ type = schema.Intersection ->
    c service fuel ctx request (schema.Rewrite type []) w
    = (Returns (false, None), popSchedule w).
Proof.
  intros fuel ctx request type w Hc Htype.
  unfold c. cbn [kindSwitch]. rewrite union_one.
  destruct Htype as [-> | ->]; cbn; unfold arrivals; rewrite Hc; reflexivity.
Qed.

Section ChildInduction.

Variable P : schema.Child -> Prop.
Hypothesis rewrite_case :
  forall type children, Forall P children -> P (schema.Rewrite type children).
Hypothesis leaf_case : forall type value, P (schema.Leaf type value).
Hypothesis other_case : forall kind, P (schema.OtherKind kind).

Fixpoint Child_induction (child : schema.Child) : P child :=
  match child with
  | schema.Rewrite type children =>
      rewrite_case type children
        ((fix all (cs : list schema.Child) : Forall P cs :=
            match cs with
            | [] => Forall_nil P
            | ch :: cs' => Forall_cons ch (Child_induction ch) (all cs')
            end) children)
  | schema.Leaf type value => leaf_case type value
  | schema.OtherKind kind => other_case kind
  end.

End ChildInduction.

Lemma functionsOf_swap (fuel : nat) (request : Request)
  (children : list schema.Child) :
  Forall (fun child =>
            kindSwitch service fuel request (swapLeafTypes child)
            = kindSwitch service fuel request child) children ->
  functionsOf (kindSwitch service fuel request) (map swapLeafTypes children)
  = functionsOf (kindSwitch service fuel request) children.
Proof.
  induction 1 as [|child children Hc _ IH]; [reflexivity|].
  cbn [map functionsOf]. rewrite Hc, IH. reflexivity.
Qed.

Lemma kindSwitch_swap (fuel : nat) (request : Request)
  (child : schema.Child) :
  kindSwitch service fuel request (swapLeafTypes child)
  = kindSwitch service fuel request child.
Proof.
  induction child as [type children IH|type value|kind]
    using Child_induction.
  - cbn [swapLeafTypes kindSwitch]. f_equal.
    unfold checkRewrite, set.
    rewrite (functionsOf_swap fuel request children IH). reflexivity.
  - destruct type; reflexivity.
  - reflexivity.
Qed.

(** X8. The two leaf types resolve alike: exchanging TupleToUserSet and
    ComputedUserSet on every leaf of a rule tree changes neither the
    check function built for it nor what [c] returns and does. *)
Theorem leaf_types_are_interchangeable :
  forall fuel ctx request child w,
    kindSwitch service fuel request (swapLeafTypes child)
    = kindSwitch service fuel request child
    /\ c service fuel ctx request (swapLeafTypes child) w
       = c service fuel ctx request child w.
Proof.
  intros fuel ctx request child w.
  split; [apply kindSwitch_swap|].
  unfold c. rewrite kindSwitch_swap. reflexivity.
Qed.

Lemma keeps_refl (p : loc) (w : World) : keeps p w w.
Proof. split; reflexivity. Qed.

Lemma keeps_trans (p : loc) (w1 w2 w3 : World) :
  keeps p w1 w2 -> keeps p w2 w3 -> keeps p w1 w3.
Proof.
  intros [L1 C1] [L2 C2]. split; [congruence|].
  intros q Hq. rewrite (C2 q Hq). apply C1, Hq.
Qed.

Lemma keeps_same_heap (p : loc) (w w' : World) :
  heap w' = heap w -> keeps p w w'.
Proof.
  intros H. unfold keeps, load. rewrite H. split; reflexivity.
Qed.

Lemma nth_update_other (p q : loc) (v : Z) (h : list Z) :
  q <> p -> nth q (update p v h) 0%Z = nth q h 0%Z.
Proof.
  revert p q. induction h as [|x h IH]; intros [|p] [|q] H; cbn;
    try reflexivity; try congruence.
  apply IH. congruence.
Qed.

Lemma keeps_store (p : loc) (v : Z) (w : World) : keeps p w (store p v w).
Proof.
  split; cbn.
  - apply update_length.
  - intros q Hq. unfold load. cbn. apply nth_update_other, Hq.
Qed.

Lemma union_one_snd (ctx : Context) (fn : CheckFunction) (w : World) :
  snd (union ctx [fn] w) = snd (fn ctx (popSchedule w)).
Proof.
  rewrite union_one. destruct (fn ctx (popSchedule w)) as [r w'].
  reflexivity.
Qed.

Lemma snd_report (u : Outcome Decision * World) :
  snd (let '(o, w) := u in (report o, w)) = snd u.
Proof. destruct u. reflexivity. Qed.

Lemma check_framed (fuel : nat) :
  forall object relation re, framed (depth re) (check service fuel object relation re).
Proof.
  induction fuel as [|fuel IH]; intros object relation re ctx w.
  - apply keeps_refl.
  - cbn [check].
    pose proof (getUsers_heap service object relation w) as Hh.
    destruct (getUsers service object relation w) as [[users err] w1].
    cbn [snd] in Hh.
    apply (keeps_trans (depth re) w w1); [apply keeps_same_heap, Hh|].
    destruct err as [e|]; [apply keeps_refl|].
    assert (Hscan :
      keeps (depth re) w1
        (snd (scan (check service fuel) re None ctx users w1))).
    { clear Hh. induction users as [|t users IHu]; cbn -[union];
        [apply keeps_refl|].
      destruct (tuple.Equals t (Subject re)); cbn -[union];
        [apply keeps_refl|].
      destruct (negb (tuple.IsUser t)); [|exact IHu].
      rewrite snd_report, union_one_snd.
      set (w2 := store (depth re) (wrap (load (depth re) w1 - 1)) w1).
      apply (keeps_trans (depth re) w1 w2); [apply keeps_store|].
      apply (keeps_trans (depth re) w2 (popSchedule w2));
        [apply keeps_same_heap; reflexivity|].
      exact (IH _ _ re ctx (popSchedule w2)). }
    destruct (scan _ _ _ _ _ _) as [r w2]. exact Hscan.
Qed.

Lemma fail_framed (p : loc) (err : option error) : framed p (fail err).
Proof. intros ctx w. apply keeps_refl. Qed.

Lemma Forall_nth_default {A : Type} (Q : A -> Prop) (l : list A) (k : nat)
  (d : A) :
  Forall Q l -> Q d -> Q (nth k l d).
Proof.
  intros Hl Hd. revert k. induction Hl as [|x l Hx _ IH]; intros [|k]; cbn;
    auto.
Qed.

Lemma Forall_removeNth {A : Type} (Q : A -> Prop) (l : list A) (k : nat) :
  Forall Q l -> Forall Q (removeNth k l).
Proof.
  intros Hl. revert k. induction Hl as [|x l Hx Hl IH]; intros [|k]; cbn;
    auto.
Qed.

Lemma launch_keeps (p : loc) (n : nat) :
  forall ctx pending w,
    Forall (framed p) pending ->
    keeps p w (snd (launch n ctx pending w)).
Proof.
  induction n as [|n IH]; intros ctx pending w Hall; [apply keeps_refl|].
  destruct pending as [|fn0 pending']; [apply keeps_refl|].
  cbn [launch].
  set (k := Nat.modulo (hd 0%nat (schedule w)) (List.length (fn0 :: pending'))).
  assert (Hk : framed p (nth k (fn0 :: pending') fn0))
    by (apply Forall_nth_default; [exact Hall|exact (Forall_inv Hall)]).
  specialize (Hk ctx (popSchedule w)).
  destruct (nth k (fn0 :: pending') fn0 ctx (popSchedule w)) as [r w1].
  cbn [snd] in Hk.
  specialize (IH ctx (removeNth k (fn0 :: pending')) w1
                 (Forall_removeNth (framed p) (fn0 :: pending') k Hall)).
  destruct (launch n ctx (removeNth k (fn0 :: pending')) w1) as [rs w2].
  cbn [snd] in *.
  apply (keeps_trans p w (popSchedule w));
    [apply keeps_same_heap; reflexivity|].
  apply (keeps_trans p (popSchedule w) w1); [exact Hk|exact IH].
Qed.

Lemma union_keeps (p : loc) (ctx : Context) (functions : list CheckFunction)
  (w : World) :
  Forall (framed p) functions -> keeps p w (snd (union ctx functions w)).
Proof.
  intros Hall. unfold union.
  destruct (Nat.eqb (List.length functions) 0); [apply keeps_refl|].
  pose proof (launch_keeps p (List.length functions) ctx functions w Hall)
    as H.
  destruct (launch _ _ _ _) as [runs w']. exact H.
Qed.

Lemma intersection_keeps (p : loc) (ctx : Context)
  (functions : list CheckFunction) (w : World) :
  Forall (framed p) functions ->
  keeps p w (snd (intersection ctx functions w)).
Proof.
  intros Hall. unfold intersection.
  destruct (Nat.eqb (List.length functions) 0); [apply keeps_refl|].
  pose proof (launch_keeps p (List.length functions) ctx functions w Hall)
    as H.
  destruct (launch _ _ _ _) as [runs w']. exact H.
Qed.

Lemma functionsOf_Forall (Q : CheckFunction -> Prop)
  (switch : schema.Child -> option CheckFunction)
  (children : list schema.Child) (functions : list CheckFunction) :
  Forall (fun child => forall fn, switch child = Some fn -> Q fn) children ->
  functionsOf switch children = Some functions ->
  Forall Q functions.
Proof.
  intros Hall. revert functions.
  induction Hall as [|child children Hc _ IH]; intros functions; cbn.
  - intros [= <-]. constructor.
  - destruct (switch child) as [fn|] eqn:E; [|discriminate].
    destruct (functionsOf switch children) as [fns|]; [|discriminate].
    intros [= <-]. constructor; [apply Hc; reflexivity|apply IH; reflexivity].
Qed.

Lemma kindSwitch_framed (fuel : nat) (request : Request)
  (child : schema.Child) :
  forall fn,
    kindSwitch service fuel request child = Some fn ->
    framed (depth request) fn.
Proof.
  induction child as [type children IH|type value|kind]
    using Child_induction; cbn [kindSwitch]; [| |discriminate].
  - intros fn [= <-].
    assert (Hset : forall combiner,
      (forall ctx functions w,
          Forall (framed (depth request)) functions ->
          keeps (depth request) w (snd (combiner ctx functions w))) ->
      framed (depth request)
        (set (kindSwitch service fuel) request children combiner)).
    { intros combiner Hcomb. unfold set.
      destruct (functionsOf (kindSwitch service fuel request) children)
        as [functions|] eqn:E; [|apply fail_framed].
      intros ctx w.
      pose proof (Hcomb ctx functions w
                    (functionsOf_Forall (framed (depth request))
                       (kindSwitch service fuel request) children functions
                       IH E)) as H.
      destruct (combiner ctx functions w) as [o w']. exact H. }
    destruct type; cbn [checkRewrite].
    + apply Hset. intros ctx functions w. apply union_keeps.
    + apply Hset. intros ctx functions w. apply intersection_keeps.
    + apply fail_framed.
  - intros fn [= <-]. destruct type; cbn [checkLeaf];
      try apply check_framed. apply fail_framed.
Qed.

(** X9. A call of [Check] writes no depth cell that was there before it:
    every cell of the heap holds after the call what it held before, and
    the call makes at most one cell, its own. *)
Theorem Check_writes_its_own_cell_only :
  forall fuel ctx s a o d w,
    (forall q, (q < List.length (heap w))%nat ->
               load q (snd (Check service fuel ctx s a o d w)) = load q w)
    /\ (List.length (heap w)
        <= List.length (heap (snd (Check service fuel ctx s a o d w)))
        <= S (List.length (heap w)))%nat.
Proof.
  intros fuel ctx s a o d w.
  destruct (tuple.ConvertObject o) as [object [e|]] eqn:Ho;
    [unfold Check; rewrite Ho; cbn; split; [reflexivity|lia]|].
  destruct (findAction a
              (schema.Actions
                 (schema.Entities (schema service) (tuple.Namespace object))))
    as [child|] eqn:Hf;
    [|unfold Check; rewrite Ho, Hf; cbn; split; [reflexivity|lia]].
  set (re := {| Object := object; Subject := tuple.ConvertUser s;
                depth := List.length (heap w) |}).
  set (w1 := {| heap := heap w ++ [d]; queries := queries w;
                schedule := schedule w |}).
  assert (Hrun : Check service fuel ctx s a o d w
                 = c service fuel ctx re child w1)
    by (unfold Check; rewrite Ho, Hf; reflexivity).
  rewrite Hrun.
  assert (Hc : keeps (depth re) w1 (snd (c service fuel ctx re child w1))).
  { unfold c.
    destruct (kindSwitch service fuel re child) as [fn|] eqn:E;
      [|apply keeps_refl].
    pose proof (union_one_snd ctx fn w1) as Hs.
    destruct (union ctx [fn] w1) as [o' w']. cbn [snd] in *. rewrite Hs.
    apply (keeps_trans (depth re) w1 (popSchedule w1));
      [apply keeps_same_heap; reflexivity|].
    apply (kindSwitch_framed fuel re child fn E). }
  destruct Hc as [Hlen Hcells]. split.
  - intros q Hq. rewrite Hcells by (cbn; lia).
    unfold load, w1. cbn. apply app_nth1, Hq.
  - rewrite Hlen. unfold w1. cbn. rewrite length_app. cbn. lia.
Qed.

Lemma removeNth_length {A : Type} (k : nat) (l : list A) :
  (k < List.length l)%nat ->
  List.length (removeNth k l) = pred (List.length l).
Proof.
  revert k. induction l as [|x l IH]; intros [|k]; cbn; try lia.
  intros H. rewrite IH by lia. destruct l; cbn in *; lia.
Qed.

Lemma launch_length (n : nat) :
  forall ctx pending w,
    List.length pending = n ->
    List.length (fst (launch n ctx pending w)) = n.
Proof.
  induction n as [|n IH]; intros ctx pending w Hlen; [reflexivity|].
  destruct pending as [|fn0 pending']; [discriminate|].
  cbn [launch].
  set (k := Nat.modulo (hd 0%nat (schedule w)) (List.length (fn0 :: pending'))).
  assert (Hk : (k < List.length (fn0 :: pending'))%nat)
    by (apply Nat.mod_upper_bound; cbn; lia).
  destruct (nth k (fn0 :: pending') fn0 ctx (popSchedule w)) as [r w1].
  specialize (IH ctx (removeNth k (fn0 :: pending')) w1).
  destruct (launch n ctx (removeNth k (fn0 :: pending')) w1) as [rs w2].
  cbn [fst List.length] in *. f_equal. apply IH.
  rewrite removeNth_length by exact Hk. cbn in *. lia.
Qed.

Lemma reports_length (runs : list Run) :
  Forall reports runs ->
  (List.length runs <= List.length (flat_map sent runs))%nat.
Proof.
  induction 1 as [|r runs Hr _ IH]; cbn; [lia|].
  rewrite length_app. unfold reports in Hr.
  destruct (sent r); [congruence|cbn; lia].
Qed.

Lemma arrivals_length (ctx : Context) (runs : list Run) :
  Forall reports runs ->
  (List.length runs <= List.length (arrivals ctx runs))%nat.
Proof.
  intros H. unfold arrivals. rewrite length_app, length_map.
  pose proof (reports_length runs H). lia.
Qed.

Lemma unionLoop_enough (n : nat) :
  forall picks, (n <= List.length picks)%nat ->
                exists d, unionLoop n picks = Some d.
Proof.
  induction n as [|n IH]; intros picks Hlen; cbn; [eexists; reflexivity|].
  destruct picks as [|[result|] picks]; cbn in Hlen; [lia| |eexists; reflexivity].
  destruct (isNil (Err result) && Can result); [eexists; reflexivity|].
  destruct (negb (isNil (Err result))); [eexists; reflexivity|].
  apply IH. lia.
Qed.

Lemma intersectionLoop_enough (n : nat) :
  forall picks, (n <= List.length picks)%nat ->
                exists d, intersectionLoop n picks = Some d.
Proof.
  induction n as [|n IH]; intros picks Hlen; cbn; [eexists; reflexivity|].
  destruct picks as [|[result|] picks]; cbn in Hlen; [lia| |eexists; reflexivity].
  destruct (isNil (Err result) && negb (Can result)); [eexists; reflexivity|].
  destruct (negb (isNil (Err result))); [eexists; reflexivity|].
  apply IH. lia.
Qed.

Lemma union_returns (ctx : Context) (functions : list CheckFunction)
  (w : World) :
  Forall reports (fst (launch (List.length functions) ctx functions w)) ->
  exists d, fst (union ctx functions w) = Returns d.
Proof.
  intros H. rewrite union_reads_arrivals. cbv zeta.
  rewrite unionOver_loop.
  destruct (unionLoop_enough (List.length functions)
              (arrivals ctx
                 (fst (launch (List.length functions) ctx functions w))))
    as [d Hd].
  - pose proof (arrivals_length ctx _ H) as Hl.
    rewrite launch_length in Hl by reflexivity. exact Hl.
  - exists d. rewrite Hd. reflexivity.
Qed.

Lemma intersection_returns (ctx : Context) (functions : list CheckFunction)
  (w : World) :
  Forall reports (fst (launch (List.length functions) ctx functions w)) ->
  exists d, fst (intersection ctx functions w) = Returns d.
Proof.
  intros H. rewrite intersection_reads_arrivals. cbv zeta.
  destruct functions as [|fn functions]; [eexists; reflexivity|].
  rewrite intersectionOver_loop by (cbn; lia).
  destruct (intersectionLoop_enough (List.length (fn :: functions))
              (arrivals ctx
                 (fst (launch (List.length (fn :: functions)) ctx
                         (fn :: functions) w))))
    as [d Hd].
  - pose proof (arrivals_length ctx _ H) as Hl.
    rewrite launch_length in Hl by reflexivity. exact Hl.
  - exists d. rewrite Hd. reflexivity.
Qed.

(** X10. A combiner returns a decision whenever each of the functions it
    starts writes at least one decision: it can wait for ever only for a
    function that writes none. *)
Theorem combiners_return_when_tasks_report :
  forall ctx functions w,
    Forall reports (fst (launch (List.length functions) ctx functions w)) ->
    (exists d, fst (union ctx functions w) = Returns d)
    /\ (exists d, fst (intersection ctx functions w) = Returns d).
Proof.
  intros ctx functions w H. split.
  - apply union_returns, H.
  - apply intersection_returns, H.
Qed.

(** X11. The task built for a rewrite node writes exactly one decision and
    returns, whatever the type of the node and the kinds of its children,
    provided each function the combiner starts writes at least one
    decision. *)
Theorem rewrite_task_reports_once :
  forall fuel request type children ctx w,
    (forall functions,
        functionsOf (kindSwitch service fuel request) children
        = Some functions ->
        Forall reports
          (fst (launch (List.length functions) ctx functions w))) ->
    exists d,
      fst (checkRewrite (kindSwitch service fuel) request type children ctx w)
      = {| sent := [d]; status := Returned |}.
Proof.
  intros fuel request type children ctx w H.
  assert (Hset : forall combiner,
    (forall functions,
        Forall reports
          (fst (launch (List.length functions) ctx functions w)) ->
        exists d, fst (combiner ctx functions w) = Returns d) ->
    exists d,
      fst (set (kindSwitch service fuel) request children combiner ctx w)
      = {| sent := [d]; status := Returned |}).
  { intros combiner Hcomb. unfold set.
    destruct (functionsOf (kindSwitch service fuel request) children)
      as [functions|]; [|eexists; reflexivity].
    destruct (Hcomb functions (H functions eq_refl)) as [d Hd].
    exists d. rewrite fst_report, Hd. reflexivity. }
  destruct type; cbn [checkRewrite].
  - apply Hset. intros functions. apply union_returns.
  - apply Hset. intros functions. apply intersection_returns.
  - eexists. reflexivity.
Qed.

(** X13. [getUsers] queries the store once, for the object and the first
    component of the relation, and writes no depth cell. When the store
    fails it hands back the error and no user, whatever tuples came with
    it. Otherwise it hands back one user per tuple, in the order of the
    store: a literal user with the tuple's id when the tuple names no
    userset entity, else a userset edge to that entity and id whose
    relation is the tuple's own, or the second component of the queried
    relation when the tuple carries the ellipsis. *)
Theorem getUsers_reads_the_store_once :
  forall object relation w en err,
    repositories.QueryTuples (repository service) (tuple.Namespace object)
      (tuple.ID object) (fst (tuple.Split relation)) = (en, err) ->
    snd (getUsers service object relation w)
    = logQuery (tuple.Namespace object, tuple.ID object,
                fst (tuple.Split relation)) w
    /\ (err <> None -> fst (getUsers service object relation w) = ([], err))
    /\ (err = None ->
        snd (fst (getUsers service object relation w)) = None
        /\ List.length (fst (fst (getUsers service object relation w)))
           = List.length en
        /\ forall i entity,
            nth_error en i = Some entity ->
            exists u,
              nth_error (fst (fst (getUsers service object relation w))) i
              = Some u
              /\ (entities.UsersetEntity entity = "" ->
                  tuple.User_ID u = entities.UsersetObjectID entity
                  /\ tuple.Namespace
                       (tuple.UserSet_Object (tuple.User_UserSet u)) = "")
              /\ (entities.UsersetEntity entity <> "" ->
                  tuple.User_ID u = ""
                  /\ tuple.UserSet_Object (tuple.User_UserSet u)
                     = {| tuple.Namespace := entities.UsersetEntity entity;
                          tuple.ID := entities.UsersetObjectID entity |}
                  /\ tuple.UserSet_Relation (tuple.User_UserSet u)
                     = if String.eqb (entities.UsersetRelation entity)
                                     tuple.ELLIPSIS
                       then snd (tuple.Split relation)
                       else entities.UsersetRelation entity)).
Proof.
  intros object relation w en err Hq.
  split; [apply getUsers_world|].
  unfold getUsers. rewrite Hq. split.
  - intros Herr. destruct err as [e|]; [reflexivity|congruence].
  - intros ->. cbn [fst snd]. split; [reflexivity|].
    split; [apply length_map|].
    intros i entity Hi. exists (userOf (snd (tuple.Split relation)) entity).
    split; [rewrite nth_error_map, Hi; reflexivity|].
    unfold userOf.
    destruct (String.eqb_spec (entities.UsersetEntity entity) "")
      as [Hempty|Hset]; cbn.
    + split; [intros _; split; reflexivity|intros H; congruence].
    + split; [intros H; congruence|intros _; repeat split; reflexivity].
Qed.

End Coverage.

(** ** The two loops against each other, and what [getUsers] reads *)

Lemma intersectionLoop_dual (n : nat) (picks : list Arrival) :
  intersectionLoop n picks
  = option_map negate (unionLoop n (map flipPick picks)).
Proof.
  revert picks. induction n as [|n IH]; intros picks; [reflexivity|].
  destruct picks as [|[[can err]|] picks]; cbn; [reflexivity| |reflexivity].
  destruct err as [e|]; cbn; [reflexivity|].
  destruct can; cbn; [apply IH|reflexivity].
Qed.

(** X12. The two combiners are dual: over at least one function, the
    intersection of decisions is the negation of the union of the negated
    decisions, errors and cancellation passing through unchanged; over no
    function the duality breaks, both returning (false, nil). *)
Theorem intersection_is_dual_of_union :
  (forall n picks,
      (0 < n)%nat ->
      intersectionOver n picks
      = option_map negate (unionOver n (map flipPick picks)))
  /\ (forall picks,
      intersectionOver 0 picks = unionOver 0 (map flipPick picks)
      /\ intersectionOver 0 picks
         <> option_map negate (unionOver 0 (map flipPick picks))).
Proof.
  split.
  - intros n picks Hn. rewrite intersectionOver_loop by exact Hn.
    rewrite unionOver_loop. apply intersectionLoop_dual.
  - intros picks. split; [reflexivity|]. cbn. discriminate.
Qed.

Lemma decreases_load (n : nat) :
  forall re w d,
    (depth re < List.length (heap w))%nat ->
    load (depth re) w = d ->
    (- 2 ^ 63 <= d - Z.of_nat n)%Z -> (d < 2 ^ 63)%Z ->
    (depth re < List.length (heap (decreases n re w)))%nat
    /\ load (depth re) (decreases n re w) = (d - Z.of_nat n)%Z.
Proof.
  induction n as [|n IH]; intros re w d Hp Hl Hlow Hhigh.
  - cbn. split; [exact Hp|lia].
  - destruct (IH re w d Hp Hl) as [Hp' Hl']; try lia.
    change (decreases (S n) re w)
      with (snd (decrease re (decreases n re w))).
    split.
    + unfold decrease, store. cbn. rewrite update_length. exact Hp'.
    + rewrite load_decrease by exact Hp'. rewrite Hl'.
      rewrite wrap_small by lia. lia.
Qed.

(** X14. The depth of a request counts its decreases: after [SetDepth d]
    and [n] calls of [decrease] the request reads depth d - n, and
    [isFinish] holds exactly when d <= n, as long as d - n stays an
    [int]. At the least [int] one more [decrease] wraps around to the
    greatest, and the request is no longer finished. *)
Theorem depth_counts_decreases :
  (forall r d w n,
      (- 2 ^ 63 <= d - Z.of_nat n)%Z -> (d < 2 ^ 63)%Z ->
      load (depth (fst (SetDepth r d w)))
           (decreases n (fst (SetDepth r d w)) (snd (SetDepth r d w)))
      = (d - Z.of_nat n)%Z
      /\ isFinish (fst (SetDepth r d w))
           (decreases n (fst (SetDepth r d w)) (snd (SetDepth r d w)))
         = (d <=? Z.of_nat n)%Z)
  /\ (forall re w,
      (depth re < List.length (heap w))%nat ->
      load (depth re) w = (- 2 ^ 63)%Z ->
      isFinish re w = true
      /\ load (depth re) (snd (decrease re w)) = (2 ^ 63 - 1)%Z
      /\ isFinish re (snd (decrease re w)) = false).
Proof.
  split.
  - intros r d w n Hlow Hhigh.
    assert (H : (depth (fst (SetDepth r d w))
                 < List.length (heap (snd (SetDepth r d w))))%nat
                /\ load (depth (fst (SetDepth r d w))) (snd (SetDepth r d w))
                   = d).
    { unfold SetDepth, alloc, load. cbn. rewrite length_app. cbn.
      split; [lia|]. rewrite app_nth2 by lia. rewrite Nat.sub_diag.
      reflexivity. }
    destruct H as [Hp Hl].
    destruct (decreases_load n _ _ d Hp Hl Hlow Hhigh) as [_ Hn].
    split; [exact Hn|]. unfold isFinish. rewrite Hn.
    destruct (Z.leb_spec d (Z.of_nat n)), (Z.leb_spec (d - Z.of_nat n) 0);
      (reflexivity || lia).
  - intros re w Hp Hl. unfold isFinish.
    rewrite load_decrease by exact Hp. rewrite Hl.
    repeat split; reflexivity.
Qed.

Section EndToEnd.

Context {pkg : tuple.Package}.
Variable service : PermissionService.

Lemma check_answers_without_edge (fuel : nat) (object : tuple.Object)
  (relation : tuple.Relation) (re : Request) (ctx : Context) (w : World)
  (en : list entities.RelationTuple) :
  isFinish re w = false ->
  repositories.QueryTuples (repository service) (tuple.Namespace object)
    (tuple.ID object) (fst (tuple.Split relation)) = (en, None) ->
  (forall before t after,
      map (userOf (snd (tuple.Split relation))) en = before ++ t :: after ->
      Forall (passed re) before ->
      tuple.Equals t (Subject re) = true ->
      check service (S fuel) object relation re ctx w
      = ({| sent := [sendDecision true None]; status := Returned |},
         logQuery (tuple.Namespace object, tuple.ID object,
                   fst (tuple.Split relation)) w))
  /\ (Forall (passed re) (map (userOf (snd (tuple.Split relation))) en) ->
      check service (S fuel) object relation re ctx w
      = ({| sent := [sendDecision false None]; status := Returned |},
         logQuery (tuple.Namespace object, tuple.ID object,
                   fst (tuple.Split relation)) w)).
Proof.
  intros Hd Hq. split.
  - intros before t after Hu Hb Ht.
    cbn [check]. unfold getUsers, depthGuard. rewrite Hq, Hd, Hu.
    cbn iota beta. rewrite scan_match by assumption. reflexivity.
  - intros Hall.
    cbn [check]. unfold getUsers, depthGuard. rewrite Hq, Hd.
    cbn iota beta. rewrite scan_all_passed by assumption. reflexivity.
Qed.

(** X15. [Check] on an action whose root is a leaf of either type, with
    depth to start with and a scope that is not canceled, when the store
    answers the leaf's query with tuples that hold no userset edge before
    the first user equal to the subject: it returns (true, nil) when
    there is such a user and (false, nil) when there is none. *)
Theorem Check_on_root_leaf_without_edge :
  forall fuel ctx s a o d w object before act after type value en,
    tuple.ConvertObject o = (object, None) ->
    schema.Actions (schema.Entities (schema service) (tuple.Namespace object))
    = before ++ act :: after ->
    (forall b, In b before -> schema.Name b <> a) ->
    schema.Name act = a ->
    schema.Action_Child act = schema.Leaf type value ->
    type = schema.TupleToUserSetType \/ type = schema.ComputedUserSetType ->
    canceled ctx = false ->
    (0 < d)%Z ->
    repositories.QueryTuples (repository service) (tuple.Namespace object)
      (tuple.ID object) (fst (tuple.Split value)) = (en, None) ->
    (forall pre t post,
        map (userOf (snd (tuple.Split value))) en = pre ++ t :: post ->
        Forall (fun u => tuple.Equals u (tuple.ConvertUser s) = false
                         /\ tuple.IsUser u = true) pre ->
        tuple.Equals t (tuple.ConvertUser s) = true ->
        fst (Check service (S fuel) ctx s a o d w) = Returns (true, None))
    /\ (Forall (fun u => tuple.Equals u (tuple.ConvertUser s) = false
                         /\ tuple.IsUser u = true)
          (map (userOf (snd (tuple.Split value))) en) ->
        fst (Check service (S fuel) ctx s a o d w) = Returns (false, None)).
Proof.
  intros fuel ctx s a o d w object before act after type value en
         Ho Hacts Hb Ha Hchild Htype Hc Hd Hq.
  rewrite (Check_found service (S fuel) ctx s a o d w object before act after)
    by assumption.
  rewrite c_fst, Hchild. cbn [kindSwitch].
  set (re := {| Object := object; Subject := tuple.ConvertUser s;
                depth := List.length (heap w) |}).
  assert (Hleaf : checkLeaf service (S fuel) re type value
                  = check service (S fuel) object value re)
    by (destruct Htype as [-> | ->]; reflexivity).
  rewrite Hleaf, union_one_fst.
  assert (Hfin : isFinish re (popSchedule (snd (alloc d w))) = false).
  { unfold isFinish.
    change (load (depth re) (popSchedule (snd (alloc d w))))
      with (load (List.length (heap w)) (snd (alloc d w))).
    rewrite load_alloc. apply Z.leb_gt, Hd. }
  destruct (check_answers_without_edge fuel object value re ctx
              (popSchedule (snd (alloc d w))) en Hfin Hq) as [Hgrant Hdeny].
  split.
  - intros pre t post Hu Hpre Ht.
    rewrite (Hgrant pre t post Hu Hpre Ht). cbn [fst].
    rewrite (unionOfRun_first ctx
               {| sent := [sendDecision true None]; status := Returned |}
               (sendDecision true None) [] Hc eq_refl);
      [reflexivity|by_cases].
  - intros Hall. rewrite (Hdeny Hall). cbn [fst].
    rewrite (unionOfRun_first ctx
               {| sent := [sendDecision false None]; status := Returned |}
               (sendDecision false None) [] Hc eq_refl);
      [reflexivity|by_cases].
Qed.

Lemma union_canceled (ctx : Context) (functions : list CheckFunction)
  (w : World) :
  canceled ctx = true -> functions <> [] ->
  fst (union ctx functions w)
  = Returns (sendDecision false (Some CanceledError)).
Proof.
  intros Hc Hne. rewrite union_reads_arrivals. cbv zeta.
  rewrite unionOver_loop. unfold arrivals. rewrite Hc.
  destruct functions as [|fn functions]; [congruence|]. reflexivity.
Qed.

(** X16. What a canceled scope changes at the entry point: [Check] still
    returns the parse error of a malformed object,
    (false, ActionCannotFoundError) for an unknown action and
    (false, UndefinedChildKindError) for a root of unknown kind; for
    every other root it returns (false, CanceledError), whatever the rule
    tree and the store would have given. *)
Theorem Check_under_canceled_scope :
  forall fuel ctx s a o d w,
    canceled ctx = true ->
    (forall object e,
        tuple.ConvertObject o = (object, Some e) ->
        fst (Check service fuel ctx s a o d w) = Returns (false, Some e))
    /\ (forall object,
        tuple.ConvertObject o = (object, None) ->
        (forall act,
            In act (schema.Actions
                      (schema.Entities (schema service)
                         (tuple.Namespace object))) ->
            schema.Name act <> a) ->
        fst (Check service fuel ctx s a o d w)
        = Returns (false, Some ActionCannotFoundError))
    /\ (forall object before act after,
        tuple.ConvertObject o = (object, None) ->
        schema.Actions
          (schema.Entities (schema service) (tuple.Namespace object))
        = before ++ act :: after ->
        (forall b, In b before -> schema.Name b <> a) ->
        schema.Name act = a ->
        fst (Check service fuel ctx s a o d w)
        = match schema.Action_Child act with
          | schema.OtherKind _ =>
              Returns (false, Some UndefinedChildKindError)
          | _ => Returns (false, Some CanceledError)
          end).
Proof.
  intros fuel ctx s a o d w Hc. split; [|split].
  - intros object e Ho. unfold Check. rewrite Ho. reflexivity.
  - intros object Ho Ha. unfold Check. rewrite Ho.
    rewrite (findAction_none _ _ Ha). reflexivity.
  - intros object before act after Ho Hacts Hb Ha.
    rewrite (Check_found service fuel ctx s a o d w object before act after)
      by assumption.
    rewrite c_fst.
    destruct (schema.Action_Child act) as [type children|type value|kind];
      cbn [kindSwitch]; [| |reflexivity];
      rewrite union_canceled by (exact Hc || discriminate); reflexivity.
Qed.

End EndToEnd.

Lemma Forall2_nth_default {A B : Type} (R : A -> B -> Prop)
  (l1 : list A) (l2 : list B) (k : nat) (d1 : A) (d2 : B) :
  Forall2 R l1 l2 -> R d1 d2 -> R (nth k l1 d1) (nth k l2 d2).
Proof.
  intros H Hd. revert k. induction H as [|x y l1 l2 Hxy _ IH]; intros [|k];
    cbn; auto.
Qed.

Lemma Forall2_removeNth {A B : Type} (R : A -> B -> Prop)
  (l1 : list A) (l2 : list B) (k : nat) :
  Forall2 R l1 l2 -> Forall2 R (removeNth k l1) (removeNth k l2).
Proof.
  intros H. revert k. induction H as [|x y l1 l2 Hxy H IH]; intros [|k];
    cbn; auto.
Qed.

Lemma Permutation_removeNth {A : Type} (l : list A) (k : nat) (d : A) :
  (k < List.length l)%nat -> Permutation (nth k l d :: removeNth k l) l.
Proof.
  revert k. induction l as [|x l IH]; intros [|k]; cbn; try lia.
  - intros _. apply Permutation_refl.
  - intros H. eapply perm_trans; [apply perm_swap|].
    apply perm_skip, IH. lia.
Qed.

Lemma flat_map_justSent (ds : list Decision) :
  flat_map sent (map justSent ds) = ds.
Proof.
  induction ds as [|d ds IH]; cbn; [reflexivity|]. rewrite IH. reflexivity.
Qed.

(** Started over functions that each settle on the heap at hand, the
    goroutines write the functions' decisions, one each, in the order the
    scheduler runs them, and leave the heap as it was. *)
Lemma launch_settled (h : list Z) (n : nat) :
  forall ctx pending ds w,
    Forall2 (settles h) pending ds ->
    heap w = h ->
    List.length pending = n ->
    exists order,
      Permutation order ds
      /\ fst (launch n ctx pending w) = map justSent order
      /\ heap (snd (launch n ctx pending w)) = h.
Proof.
  induction n as [|n IH]; intros ctx pending ds w Hall Hw Hlen.
  - destruct pending; [|discriminate]. inversion Hall; subst.
    exists []. cbn. repeat split. constructor.
  - destruct Hall as [|fn0 d0 pending' ds' H0 Hall']; [discriminate|].
    assert (Hall : Forall2 (settles h) (fn0 :: pending') (d0 :: ds'))
      by (constructor; assumption).
    cbn [launch].
    set (k := Nat.modulo (hd 0%nat (schedule w)) (List.length (fn0 :: pending'))).
    assert (Hk : (k < List.length (fn0 :: pending'))%nat)
      by (apply Nat.mod_upper_bound; cbn; lia).
    pose proof (Forall2_nth_default (settles h) (fn0 :: pending') (d0 :: ds')
                  k fn0 d0 Hall H0 ctx (popSchedule w) Hw) as [Hr Hh].
    destruct (nth k (fn0 :: pending') fn0 ctx (popSchedule w)) as [r w1].
    cbn [fst snd] in Hr, Hh.
    destruct (IH ctx (removeNth k (fn0 :: pending'))
                (removeNth k (d0 :: ds')) w1
                (Forall2_removeNth (settles h) _ _ k Hall) Hh)
      as (order & Hperm & Hruns & Hheap).
    { rewrite removeNth_length by exact Hk. cbn in *. lia. }
    destruct (launch n ctx (removeNth k (fn0 :: pending')) w1) as [rs w2].
    cbn [fst snd] in *.
    exists (nth k (d0 :: ds') d0 :: order). repeat split.
    + eapply perm_trans; [apply perm_skip, Hperm|].
      apply Permutation_removeNth.
      rewrite <- (Forall2_length Hall). exact Hk.
    + rewrite Hr, Hruns. reflexivity.
    + exact Hheap.
Qed.

Lemma combiners_on_settled (ctx : Context) (functions : list CheckFunction)
  (ds : list Decision) (w : World) :
  canceled ctx = false ->
  Forall2 (settles (heap w)) functions ds ->
  Forall clean ds ->
  (fst (union ctx functions w)
   = Returns (sendDecision (existsb Can ds) None)
   /\ heap (snd (union ctx functions w)) = heap w)
  /\ (functions <> [] ->
      fst (intersection ctx functions w)
      = Returns (sendDecision (forallb Can ds) None)
      /\ heap (snd (intersection ctx functions w)) = heap w).
Proof.
  intros Hc Hall Hclean.
  destruct (launch_settled (heap w) (List.length functions) ctx functions ds w
              Hall eq_refl eq_refl) as (order & Hperm & Hruns & Hheap).
  assert (Ho : Forall clean order)
    by (eapply Permutation_Forall; [symmetry; exact Hperm|exact Hclean]).
  assert (Hlen : List.length functions = List.length order).
  { rewrite (Forall2_length Hall). symmetry. apply Permutation_length, Hperm. }
  assert (Harr : arrivals ctx (map justSent order) = map Recv order)
    by (unfold arrivals; rewrite Hc, flat_map_justSent; reflexivity).
  split.
  - unfold union.
    destruct functions as [|fn functions].
    + inversion Hall; subst. cbn. split; reflexivity.
    + cbn [List.length Nat.eqb] in *.
      destruct (launch (S (List.length functions)) ctx (fn :: functions) w)
        as [runs w'].
      cbn [fst snd] in *. subst runs. split; [|exact Hheap].
      rewrite Harr, Hlen, unionLoop_clean by exact Ho.
      rewrite (existsb_Permutation Can Hperm). reflexivity.
  - intros Hne. unfold intersection.
    destruct functions as [|fn functions]; [congruence|].
    cbn [List.length Nat.eqb] in *.
    destruct (launch (S (List.length functions)) ctx (fn :: functions) w)
      as [runs w'].
    cbn [fst snd] in *. subst runs. split; [|exact Hheap].
    rewrite Harr, Hlen, intersectionLoop_clean by exact Ho.
    rewrite (forallb_Permutation Can Hperm). reflexivity.
Qed.

Section Folding.

Context {pkg : tuple.Package}.
Variable service : PermissionService.

Lemma leaf_without_edge_settles (fuel : nat) (object : tuple.Object)
  (relation : tuple.Relation) (re : Request) (h : list Z)
  (en : list entities.RelationTuple) :
  (0 < nth (depth re) h 0)%Z ->
  repositories.QueryTuples (repository service) (tuple.Namespace object)
    (tuple.ID object) (fst (tuple.Split relation)) = (en, None) ->
  (forall before t after,
      map (userOf (snd (tuple.Split relation))) en = before ++ t :: after ->
      Forall (passed re) before ->
      tuple.Equals t (Subject re) = true ->
      settles h (check service (S fuel) object relation re)
        (sendDecision true None))
  /\ (Forall (passed re) (map (userOf (snd (tuple.Split relation))) en) ->
      settles h (check service (S fuel) object relation re)
        (sendDecision false None)).
Proof.
  intros Hd Hq.
  assert (Hfin : forall w, heap w = h -> isFinish re w = false).
  { intros w Hw. unfold isFinish, load. rewrite Hw. apply Z.leb_gt, Hd. }
  split.
  - intros before t after Hu Hb Ht ctx w Hw.
    destruct (check_answers_without_edge service fuel object relation re ctx w
                en (Hfin w Hw) Hq) as [Hgrant _].
    rewrite (Hgrant before t after Hu Hb Ht). split; [reflexivity|exact Hw].
  - intros Hall ctx w Hw.
    destruct (check_answers_without_edge service fuel object relation re ctx w
                en (Hfin w Hw) Hq) as [_ Hdeny].
    rewrite (Hdeny Hall). split; [reflexivity|exact Hw].
Qed.

(** X17. Over functions that each write one decision without an error
    and leave the heap alone, under a scope that is not canceled, the
    union returns "some decision is allowed" and the intersection, over
    at least one function, "all decisions are allowed", in whatever order
    the scheduler runs the functions, and the heap is left as it was.
    Such a function is every leaf task that starts with depth left on a
    store that answers its query without a userset edge before the first
    user equal to the subject: it writes (true, nil) when there is such a
    user and (false, nil) when there is none. *)
Theorem combiners_fold_settled_tasks :
  (forall ctx functions ds w,
      canceled ctx = false ->
      Forall2 (settles (heap w)) functions ds ->
      Forall clean ds ->
      (fst (union ctx functions w)
       = Returns (sendDecision (existsb Can ds) None)
       /\ heap (snd (union ctx functions w)) = heap w)
      /\ (functions <> [] ->
          fst (intersection ctx functions w)
          = Returns (sendDecision (forallb Can ds) None)
          /\ heap (snd (intersection ctx functions w)) = heap w))
  /\ (forall fuel object relation re h en,
      (0 < nth (depth re) h 0)%Z ->
      repositories.QueryTuples (repository service) (tuple.Namespace object)
        (tuple.ID object) (fst (tuple.Split relation)) = (en, None) ->
      (forall before t after,
          map (userOf (snd (tuple.Split relation))) en
          = before ++ t :: after ->
          Forall (passed re) before ->
          tuple.Equals t (Subject re) = true ->
          settles h (check service (S fuel) object relation re)
            (sendDecision true None))
      /\ (Forall (passed re) (map (userOf (snd (tuple.Split relation))) en) ->
          settles h (check service (S fuel) object relation re)
            (sendDecision false None))).
Proof.
  split.
  - exact combiners_on_settled.
  - exact leaf_without_edge_settles.
Qed.

End Folding.

(** ** The further properties at work on the concrete store *)

Lemma leaf_without_edge_witness :
  check Demo.service 1 (Demo.doc "1") "owner"
    (Demo.request (Demo.doc "1") "alice") Demo.background (Demo.worldAt 5)
  = ({| sent := [sendDecision true None]; status := Returned |},
     logQuery ("doc", "1", "owner") (Demo.worldAt 5))
  /\ check Demo.service 1 (Demo.doc "1") "owner"
       (Demo.request (Demo.doc "1") "bob") Demo.background (Demo.worldAt 5)
     = ({| sent := [sendDecision false None]; status := Returned |},
        logQuery ("doc", "1", "owner") (Demo.worldAt 5)).
Proof.
  split.
  - destruct (leaf_without_edge Demo.service 0 (Demo.doc "1") "owner"
                (Demo.request (Demo.doc "1") "alice") Demo.background
                (Demo.worldAt 5) [Demo.literal "alice"]
                (logQuery ("doc", "1", "owner") (Demo.worldAt 5)))
      as [Hgrant _]; [reflexivity|].
    apply (Hgrant [] (Demo.literal "alice") []).
    + reflexivity.
    + constructor.
    + reflexivity.
  - destruct (leaf_without_edge Demo.service 0 (Demo.doc "1") "owner"
                (Demo.request (Demo.doc "1") "bob") Demo.background
                (Demo.worldAt 5) [Demo.literal "alice"]
                (logQuery ("doc", "1", "owner") (Demo.worldAt 5)))
      as [_ Hdeny]; [reflexivity|].
    apply Hdeny. constructor; [split; reflexivity|constructor].
Defined.

Lemma leaf_writes_at_most_two_witness :
  hd_error
    (sent (fst (check Demo.service 1 (Demo.doc "1") "owner"
                  (Demo.request (Demo.doc "1") "alice") Demo.background
                  (Demo.worldAt 0))))
  = Some (sendDecision false (Some DepthError))
  /\ (List.length
        (sent (fst (check Demo.service 1 (Demo.doc "1") "owner"
                      (Demo.request (Demo.doc "1") "alice") Demo.background
                      (Demo.worldAt 5)))) <= 1)%nat.
Proof.
  split.
  - destruct (leaf_writes_at_most_two Demo.service 1 (Demo.doc "1") "owner"
                (Demo.request (Demo.doc "1") "alice") Demo.background
                (Demo.worldAt 0)) as (_ & _ & Hfirst).
    apply Hfirst. reflexivity.
  - destruct (leaf_writes_at_most_two Demo.service 1 (Demo.doc "1") "owner"
                (Demo.request (Demo.doc "1") "alice") Demo.background
                (Demo.worldAt 5)) as (_ & Hone & _).
    apply Hone. reflexivity.
Defined.

Lemma leaf_decided_within_depth_witness :
  fst (check Demo.service 3 (Demo.doc "1") "viewer"
         (Demo.request (Demo.doc "1") "carol") Demo.background
         (Demo.worldAt 2))
  = fst (check Demo.service 10 (Demo.doc "1") "viewer"
           (Demo.request (Demo.doc "1") "carol") Demo.background
           (Demo.worldAt 2))
  /\ status (fst (check Demo.service 3 (Demo.doc "1") "viewer"
                    (Demo.request (Demo.doc "1") "carol") Demo.background
                    (Demo.worldAt 2)))
     <> OutOfFuel.
Proof.
  apply (leaf_decided_within_depth Demo.service 2 3 10).
  - cbn. lia.
  - reflexivity.
  - lia.
  - cbn. lia.
  - lia.
  - lia.
Defined.

Lemma Check_runs_first_action_witness :
  Check Leaves.service 2 Demo.background "alice" "own" "doc" 5 Demo.world0
  = (Returns (false,
              Some (ExternalError "input is not suitable for the object")),
     Demo.world0)
  /\ Check Leaves.service 2 Demo.background "alice" "own" "doc:1" 5 Demo.world0
     = c Leaves.service 2 Demo.background
         {| Object := Demo.doc "1"; Subject := Demo.literal "alice";
            depth := 1 |}
         (schema.Leaf schema.ComputedUserSetType "owner")
         {| heap := [0%Z; 5%Z]; queries := []; schedule := [] |}.
Proof.
  destruct (Check_runs_first_action Leaves.service) as [Hparse Hfirst].
  split.
  - apply (Hparse 2%nat Demo.background "alice" "own" "doc" 5%Z Demo.world0
             {| tuple.Namespace := ""; tuple.ID := "" |}).
    reflexivity.
  - apply (Hfirst 2%nat Demo.background "alice" "own" "doc:1" 5%Z Demo.world0
             (Demo.doc "1")
             [ {| schema.Name := "watch";
                  schema.Action_Child :=
                    schema.Leaf schema.TupleToUserSetType "viewer" |} ]
             {| schema.Name := "own";
                schema.Action_Child :=
                  schema.Leaf schema.ComputedUserSetType "owner" |}
             [ {| schema.Name := "own";
                  schema.Action_Child :=
                    schema.Leaf schema.ComputedUserSetType "editor" |} ]).
    + reflexivity.
    + reflexivity.
    + intros b [<-|[]]. cbn. discriminate.
    + reflexivity.
Defined.

Lemma Check_exhausted_at_root_leaf_witness :
  fst (Check Leaves.service 1 Demo.background "carol" "watch" "doc:1" 0
         Demo.world0)
  = Returns (false, Some DepthError).
Proof.
  apply (Check_exhausted_at_root_leaf Leaves.service 0 Demo.background
           "carol" "watch" "doc:1" 0 Demo.world0 (Demo.doc "1") []
           {| schema.Name := "watch";
              schema.Action_Child :=
                schema.Leaf schema.TupleToUserSetType "viewer" |}
           [ {| schema.Name := "own";
                schema.Action_Child :=
                  schema.Leaf schema.ComputedUserSetType "owner" |};
             {| schema.Name := "own";
                schema.Action_Child :=
                  schema.Leaf schema.ComputedUserSetType "editor" |} ]
           schema.TupleToUserSetType "viewer").
  - reflexivity.
  - reflexivity.
  - intros b [].
  - reflexivity.
  - reflexivity.
  - left. reflexivity.
  - reflexivity.
  - lia.
Defined.

Lemma c_on_undefined_nodes_witness :
  c Demo.service 1 Demo.background (Demo.request (Demo.doc "1") "alice")
    (schema.Leaf (schema.OtherLeafType "Exclusion") "owner") (Demo.worldAt 5)
  = (Returns (false, Some UndefinedChildTypeError), Demo.worldAt 5)
  /\ c Demo.service 1 Demo.background (Demo.request (Demo.doc "1") "alice")
       (schema.Rewrite (schema.OtherOP "exclusion")
          [schema.Leaf schema.ComputedUserSetType "owner"]) (Demo.worldAt 5)
     = (Returns (false, Some UndefinedChildTypeError), Demo.worldAt 5)
  /\ c Demo.service 1 Demo.background (Demo.request (Demo.doc "1") "alice")
       (schema.Rewrite schema.Union
          [schema.Leaf schema.ComputedUserSetType "owner";
           schema.OtherKind "macro"]) (Demo.worldAt 5)
     = (Returns (false, Some UndefinedChildKindError), Demo.worldAt 5).
Proof.
  destruct (c_on_undefined_nodes Demo.service) as (_ & Hleaf & Hop & Hchild).
  split; [|split].
  - apply (Hleaf 1%nat Demo.background _ "Exclusion" "owner" (Demo.worldAt 5)).
    reflexivity.
  - apply (Hop 1%nat Demo.background _ "exclusion" _ (Demo.worldAt 5)).
    reflexivity.
  - apply (Hchild 1%nat Demo.background _ schema.Union "macro" _
             (Demo.worldAt 5)).
    + reflexivity.
    + left. reflexivity.
    + right. left. reflexivity.
Defined.

Lemma c_on_empty_rewrite_witness :
  c Demo.service 1 Demo.background (Demo.request (Demo.doc "1") "alice")
    (schema.Rewrite schema.Intersection []) (Demo.worldAt 5)
  = (Returns (false, None), Demo.worldAt 5).
Proof.
  apply (c_on_empty_rewrite Demo.service 1 Demo.background _
           schema.Intersection (Demo.worldAt 5)).
  - reflexivity.
  - right. reflexivity.
Defined.

Lemma Check_writes_its_own_cell_only_witness :
  load 1 (snd (Check Demo.service 4 Demo.background
                 "bob" "read" "doc:3" 1 (Demo.worldAt 7)))
  = 7%Z.
Proof.
  destruct (Check_writes_its_own_cell_only Demo.service 4 Demo.background
              "bob" "read" "doc:3" 1 (Demo.worldAt 7)) as [Hcells _].
  rewrite (Hcells 1%nat); [reflexivity|cbn; lia].
Defined.

Lemma combiners_return_when_tasks_report_witness :
  (exists d,
      fst (union Demo.background
             [fail (Some DepthError); fail None] Demo.world0) = Returns d)
  /\ (exists d,
      fst (intersection Demo.background
             [fail (Some DepthError); fail None] Demo.world0) = Returns d).
Proof.
  apply (combiners_return_when_tasks_report Demo.background
           [fail (Some DepthError); fail None] Demo.world0).
  cbn. constructor; [discriminate|constructor; [discriminate|constructor]].
Defined.

Lemma rewrite_task_reports_once_witness :
  exists d,
    fst (checkRewrite (kindSwitch Demo.service 1)
           (Demo.request (Demo.doc "1") "alice") schema.Union
           [schema.Leaf schema.ComputedUserSetType "owner";
            schema.Leaf (schema.OtherLeafType "Exclusion") "editor"]
           Demo.background (Demo.worldAt 5))
    = {| sent := [d]; status := Returned |}.
Proof.
  apply (rewrite_task_reports_once Demo.service 1
           (Demo.request (Demo.doc "1") "alice") schema.Union
           [schema.Leaf schema.ComputedUserSetType "owner";
            schema.Leaf (schema.OtherLeafType "Exclusion") "editor"]
           Demo.background (Demo.worldAt 5)).
  intros functions H. cbn in H. injection H as <-.
  cbn. constructor; [discriminate|constructor; [discriminate|constructor]].
Defined.

Lemma intersection_is_dual_of_union_witness :
  intersectionOver 2 [Recv (sendDecision true None);
                      Recv (sendDecision false None)]
  = option_map negate
      (unionOver 2 (map flipPick [Recv (sendDecision true None);
                                  Recv (sendDecision false None)])).
Proof.
  apply (proj1 intersection_is_dual_of_union 2%nat). lia.
Defined.

Lemma getUsers_reads_the_store_once_witness :
  snd (getUsers Demo.service (Demo.doc "3") "viewer.member" (Demo.worldAt 5))
  = logQuery ("doc", "3", "viewer") (Demo.worldAt 5)
  /\ List.length
       (fst (fst (getUsers Demo.service (Demo.doc "3") "viewer.member"
                    (Demo.worldAt 5))))
     = 1%nat
  /\ fst (getUsers Demo.service (Demo.doc "2") "owner" (Demo.worldAt 5))
     = ([], Some (ExternalError "store down")).
Proof.
  split; [|split].
  - destruct (getUsers_reads_the_store_once Demo.service (Demo.doc "3")
                "viewer.member" (Demo.worldAt 5)
                [Demo.edge "group" "g2" "member"] None)
      as (Hlog & _ & _); [reflexivity|exact Hlog].
  - destruct (getUsers_reads_the_store_once Demo.service (Demo.doc "3")
                "viewer.member" (Demo.worldAt 5)
                [Demo.edge "group" "g2" "member"] None)
      as (_ & _ & Hok); [reflexivity|].
    destruct (Hok eq_refl) as (_ & Hlen & _). exact Hlen.
  - destruct (getUsers_reads_the_store_once Demo.service (Demo.doc "2")
                "owner" (Demo.worldAt 5) [] (Some (ExternalError "store down")))
      as (_ & Herr & _); [reflexivity|].
    apply Herr. discriminate.
Defined.

Lemma depth_counts_decreases_witness :
  isFinish (fst (SetDepth (Demo.request (Demo.doc "1") "alice") 3 Demo.world0))
    (decreases 3
       (fst (SetDepth (Demo.request (Demo.doc "1") "alice") 3 Demo.world0))
       (snd (SetDepth (Demo.request (Demo.doc "1") "alice") 3 Demo.world0)))
  = true
  /\ isFinish (Demo.request (Demo.doc "1") "alice")
       (snd (decrease (Demo.request (Demo.doc "1") "alice")
               (Demo.worldAt (- 2 ^ 63))))
     = false.
Proof.
  destruct depth_counts_decreases as [Hcount Hwrap].
  split.
  - destruct (Hcount (Demo.request (Demo.doc "1") "alice") 3%Z Demo.world0
                3%nat) as [_ Hfin]; [cbn; lia|cbn; lia|].
    rewrite Hfin. reflexivity.
  - destruct (Hwrap (Demo.request (Demo.doc "1") "alice")
                (Demo.worldAt (- 2 ^ 63))) as (_ & _ & Hfin);
      [cbn; lia|reflexivity|exact Hfin].
Defined.

Lemma Check_on_root_leaf_without_edge_witness :
  fst (Check Leaves.service 1 Demo.background "alice" "own" "doc:1" 5
         Demo.world0)
  = Returns (true, None)
  /\ fst (Check Leaves.service 1 Demo.background "bob" "own" "doc:1" 5
            Demo.world0)
     = Returns (false, None).
Proof.
  split.
  - destruct (Check_on_root_leaf_without_edge Leaves.service 0 Demo.background
                "alice" "own" "doc:1" 5 Demo.world0 (Demo.doc "1")
                [ {| schema.Name := "watch";
                     schema.Action_Child :=
                       schema.Leaf schema.TupleToUserSetType "viewer" |} ]
                {| schema.Name := "own";
                   schema.Action_Child :=
                     schema.Leaf schema.ComputedUserSetType "owner" |}
                [ {| schema.Name := "own";
                     schema.Action_Child :=
                       schema.Leaf schema.ComputedUserSetType "editor" |} ]
                schema.ComputedUserSetType "owner" [Demo.grant "alice"])
      as [Hgrant _].
    + reflexivity.
    + reflexivity.
    + intros b [<-|[]]. cbn. discriminate.
    + reflexivity.
    + reflexivity.
    + right. reflexivity.
    + reflexivity.
    + lia.
    + reflexivity.
    + apply (Hgrant [] (Demo.literal "alice") []).
      * reflexivity.
      * constructor.
      * reflexivity.
  - destruct (Check_on_root_leaf_without_edge Leaves.service 0 Demo.background
                "bob" "own" "doc:1" 5 Demo.world0 (Demo.doc "1")
                [ {| schema.Name := "watch";
                     schema.Action_Child :=
                       schema.Leaf schema.TupleToUserSetType "viewer" |} ]
                {| schema.Name := "own";
                   schema.Action_Child :=
                     schema.Leaf schema.ComputedUserSetType "owner" |}
                [ {| schema.Name := "own";
                     schema.Action_Child :=
                       schema.Leaf schema.ComputedUserSetType "editor" |} ]
                schema.ComputedUserSetType "owner" [Demo.grant "alice"])
      as [_ Hdeny].
    + reflexivity.
    + reflexivity.
    + intros b [<-|[]]. cbn. discriminate.
    + reflexivity.
    + reflexivity.
    + right. reflexivity.
    + reflexivity.
    + lia.
    + reflexivity.
    + apply Hdeny. constructor; [split; reflexivity|constructor].
Defined.

Lemma Check_under_canceled_scope_witness :
  fst (Check Demo.service 4 Demo.expired "alice" "view" "doc:1" 5 Demo.world0)
  = Returns (false, Some CanceledError)
  /\ fst (Check Demo.service 4 Demo.expired "alice" "view" "doc" 5
            Demo.world0)
     = Returns (false,
                Some (ExternalError "input is not suitable for the object")).
Proof.
  destruct (Check_under_canceled_scope Demo.service 4 Demo.expired
              "alice" "view" "doc:1" 5 Demo.world0 eq_refl)
    as (_ & _ & Hfound).
  destruct (Check_under_canceled_scope Demo.service 4 Demo.expired
              "alice" "view" "doc" 5 Demo.world0 eq_refl)
    as (Hparse & _ & _).
  split.
  - rewrite (Hfound (Demo.doc "1") []
               {| schema.Name := "view";
                  schema.Action_Child :=
                    schema.Rewrite schema.Union
                      [schema.Leaf schema.ComputedUserSetType "owner";
                       schema.Leaf schema.TupleToUserSetType "parent.view"] |}
               (tl (schema.Actions (schema.Entities Demo.rules "doc")))).
    + reflexivity.
    + reflexivity.
    + reflexivity.
    + intros b [].
    + reflexivity.
  - apply (Hparse {| tuple.Namespace := ""; tuple.ID := "" |}). reflexivity.
Defined.

Lemma combiners_fold_settled_tasks_witness :
  fst (union Demo.background
         [check Demo.service 1 (Demo.doc "1") "editor"
            (Demo.request (Demo.doc "1") "alice");
          check Demo.service 1 (Demo.doc "1") "owner"
            (Demo.request (Demo.doc "1") "alice")]
         (Demo.worldAt 5))
  = Returns (sendDecision true None)
  /\ fst (intersection Demo.background
            [check Demo.service 1 (Demo.doc "1") "editor"
               (Demo.request (Demo.doc "1") "alice");
             check Demo.service 1 (Demo.doc "1") "owner"
               (Demo.request (Demo.doc "1") "alice")]
            (Demo.worldAt 5))
     = Returns (sendDecision false None).
Proof.
  destruct (combiners_fold_settled_tasks Demo.service) as [Hfold Hleaf].
  assert (Heditor :
    settles (heap (Demo.worldAt 5))
      (check Demo.service 1 (Demo.doc "1") "editor"
         (Demo.request (Demo.doc "1") "alice"))
      (sendDecision false None)).
  { destruct (Hleaf 0%nat (Demo.doc "1") "editor"
                (Demo.request (Demo.doc "1") "alice")
                (heap (Demo.worldAt 5)) []) as [_ Hdeny].
    - cbn. lia.
    - reflexivity.
    - apply Hdeny. constructor. }
  assert (Howner :
    settles (heap (Demo.worldAt 5))
      (check Demo.service 1 (Demo.doc "1") "owner"
         (Demo.request (Demo.doc "1") "alice"))
      (sendDecision true None)).
  { destruct (Hleaf 0%nat (Demo.doc "1") "owner"
                (Demo.request (Demo.doc "1") "alice")
                (heap (Demo.worldAt 5)) [Demo.grant "alice"]) as [Hgrant _].
    - cbn. lia.
    - reflexivity.
    - apply (Hgrant [] (Demo.literal "alice") []).
      + reflexivity.
      + constructor.
      + reflexivity. }
  destruct (Hfold Demo.background
              [check Demo.service 1 (Demo.doc "1") "editor"
                 (Demo.request (Demo.doc "1") "alice");
               check Demo.service 1 (Demo.doc "1") "owner"
                 (Demo.request (Demo.doc "1") "alice")]
              [sendDecision false None; sendDecision true None]
              (Demo.worldAt 5)) as [[Hunion _] Hinter].
  - reflexivity.
  - constructor; [exact Heditor|constructor; [exact Howner|constructor]].
  - constructor; [reflexivity|constructor; [reflexivity|constructor]].
  - split; [exact Hunion|].
    destruct Hinter as [Hi _]; [discriminate|exact Hi].
Defined.

(** ** The combiners over functions that report *)













(** C9. A leaf task whose request has no depth left and whose users hold
    a userset edge: the guard writes [DepthError] and the task still
    follows the edge, decrementing the depth and querying the store for
    the edge's object, so the decision the union over the recursive check
    returns is the second the task writes, not its decision: under a
    canceled scope the task writes (false, DepthError) and then the
    union's (false, CanceledError). *)
Theorem exhausted_leaf_still_follows_edge :
  (forall fuel,
      check Demo.service (S (S fuel)) (Demo.doc "3") "viewer"
        (Demo.request (Demo.doc "3") "bob") Demo.background (Demo.worldAt 0)
      = ({| sent := [sendDecision false (Some DepthError);
                     sendDecision false (Some DepthError)];
            status := Returned |},
         {| heap := [0%Z; (-1)%Z];
            queries := [("doc", "3", "viewer"); ("group", "g2", "member")];
            schedule := [] |}))
  /\ (forall fuel,
      sent (fst (check Demo.service (S (S fuel)) (Demo.doc "3") "viewer"
                   (Demo.request (Demo.doc "3") "bob") Demo.expired
                   (Demo.worldAt 0)))
      = [sendDecision false (Some DepthError);
         sendDecision false (Some CanceledError)])
  /\ (forall fuel,
      fst (union Demo.expired
             [check Demo.service (S fuel)
                {| tuple.Namespace := "group"; tuple.ID := "g2" |} "member"
                (Demo.request (Demo.doc "3") "bob")]
             (snd (decrease (Demo.request (Demo.doc "3") "bob")
                     (logQuery ("doc", "3", "viewer") (Demo.worldAt 0)))))
      = Returns (sendDecision false (Some CanceledError))).
Proof. repeat split; intros fuel; reflexivity. Qed.
